(** * Plants database audit (audit.py): a shallow embedding and its properties

    The development follows [PlantsDatabaseAuditor] of [src/audit.py]:

    - the YAML documents are dynamically typed Python values ([value]);
    - the auditor object carries two growing lists of messages
      ([self.issues], [self.warnings]) and the process writes to standard
      output: these three lists are the state of a small state-and-exception
      monad [M];
    - every method of the class is one definition of the same name; the
      file system is an input of the constructor ([files]);
    - the Python built-ins whose behaviour depends on the Unicode database
      ([str.lower], [str.upper], [str.split()], [repr], [int], [float]) are
      the fields of the class [PyRuntime]; the rules are written against that
      interface and [ref_runtime] is an executable instance for ASCII and
      Cyrillic text;
    - a [float] is a binary64 number of [SpecFloat]. *)

From Stdlib Require Import ZArith String Ascii Bool Lia DecimalString.
From Stdlib Require Import Floats.SpecFloat.
From stdpp Require Import gmap strings list.

#[local] Set Warnings "-register-all".
Local Open Scope Z_scope.

(** ** Python values, as [yaml.safe_load] builds them *)

(** The scalars are [None], the booleans, the integers and the strings;
    the float and timestamp scalars of YAML are not represented. Mappings
    keep their insertion order (a Python [dict]); their keys are strings, as
    the identifiers of the audited documents are. *)
Inductive value : Type :=
| VNone
| VBool (b : bool)
| VInt (z : Z)
| VStr (s : string)
| VList (l : list value)
| VDict (d : list (string * value)).

(** Exceptions a rule can raise, and [SystemExit] for [sys.exit]. *)
Inductive exn : Type :=
| AttributeError
| TypeError
| IndexError
| ValueError
| SystemExit (code : Z).

Inductive res (A : Type) : Type :=
| Ok (a : A)
| Raise (e : exn).
Arguments Ok {A} a.
Arguments Raise {A} e.

#[global] Instance res_ret : MRet res := fun _ a => Ok a.
#[global] Instance res_bind : MBind res := fun _ _ f m =>
  match m with
  | Ok a => f a
  | Raise e => Raise e
  end.

(** ** Strings *)

Definition nl : string := String (ascii_of_nat 10) "".

(** [needle in hay] on two [str]. UTF-8 being self-synchronising, the test on
    bytes agrees with the test on code points. *)
Fixpoint str_contains (needle hay : string) : bool :=
  String.prefix needle hay ||
  match hay with
  | EmptyString => false
  | String _ t => str_contains needle t
  end.

(** [s.split(sep)] for a one-character ASCII separator. *)
Fixpoint split_on (sep : ascii) (s : string) : list string :=
  match s with
  | EmptyString => [EmptyString]
  | String c t =>
      if Ascii.eqb c sep then EmptyString :: split_on sep t
      else match split_on sep t with
           | h :: r => String c h :: r
           | [] => [String c EmptyString]
           end
  end.

(** [l[-1]]; the lists it is applied to are never empty. *)
Definition last_item (l : list string) : string := List.last l EmptyString.

(** [", ".join(l)] and friends. *)
Fixpoint join (sep : string) (l : list string) : string :=
  match l with
  | [] => ""
  | [x] => x
  | x :: r => x +:+ sep +:+ join sep r
  end.

(** ["=" * 60] *)
Fixpoint str_repeat (n : nat) (s : string) : string :=
  match n with
  | O => ""
  | S k => s +:+ str_repeat k s
  end.

(** [str(z)] for an [int]. *)
Definition str_of_Z (z : Z) : string := NilZero.string_of_int (Z.to_int z).

(** [len(l)] printed in an f-string. *)
Definition str_of_len {A} (l : list A) : string := str_of_Z (Z.of_nat (length l)).

(** The code points of a UTF-8 string, each as its own string: what
    [for c in s] yields. *)
Definition utf8_width (c : ascii) : nat :=
  let n := nat_of_ascii c in
  if (n <? 192)%nat then 1%nat
  else if (n <? 224)%nat then 2%nat
  else if (n <? 240)%nat then 3%nat
  else 4%nat.

Fixpoint take_str (n : nat) (s : string) : string * string :=
  match n, s with
  | O, _ => (EmptyString, s)
  | S _, EmptyString => (EmptyString, EmptyString)
  | S k, String c t => let '(a, b) := take_str k t in (String c a, b)
  end.

Fixpoint utf8_chars_fuel (fuel : nat) (s : string) : list string :=
  match fuel, s with
  | O, _ => []
  | _, EmptyString => []
  | S k, String c t =>
      let '(a, b) := take_str (utf8_width c - 1) t in
      String c a :: utf8_chars_fuel k b
  end.

Definition utf8_chars (s : string) : list string :=
  utf8_chars_fuel (String.length s) s.

(** ** The Python run time the rules rely on *)

(** A Python [float] is a binary64 number. *)
Definition pyfloat : Type := spec_float.

Definition float_prec : Z := 53.
Definition float_emax : Z := 1024.

(** The integer [z] as a float, rounded to nearest even. *)
Definition float_of_Z (z : Z) : pyfloat :=
  binary_normalize float_prec float_emax z 0 false.

(** [a < b] and [a <= b] on floats; both are false when one side is NaN. *)
Definition float_ltb (a b : pyfloat) : bool := SFltb a b.
Definition float_leb (a b : pyfloat) : bool := SFleb a b.

(** [math.isnan(x)] *)
Definition is_nan (x : pyfloat) : bool :=
  match x with S754_nan => true | _ => false end.

Class PyRuntime : Type := {
  (** [s.lower()] and [s.upper()] *)
  str_lower : string -> string;
  str_upper : string -> string;
  (** [s.split()]: the maximal runs of non-whitespace characters *)
  str_split : string -> list string;
  (** [repr(s)] of a [str] *)
  str_repr : string -> string;
  (** [int(s)] and [float(s)]; [None] stands for [ValueError] *)
  py_int : string -> option Z;
  py_float : string -> option pyfloat
}.

(** ** Operations on values *)

Definition truthy (v : value) : bool :=
  match v with
  | VNone => false
  | VBool b => b
  | VInt z => negb (z =? 0)
  | VStr s => negb (String.eqb s "")
  | VList l => match l with [] => false | _ => true end
  | VDict d => match d with [] => false | _ => true end
  end.

Definition is_none (v : value) : bool :=
  match v with VNone => true | _ => false end.

Fixpoint assoc_get {A} (k : string) (d : list (string * A)) : option A :=
  match d with
  | [] => None
  | (k', v) :: r => if String.eqb k' k then Some v else assoc_get k r
  end.

(** [d.get(k, default)]; only a [dict] has the method. *)
Definition py_get (d : value) (k : string) (default : value) : res value :=
  match d with
  | VDict l => Ok (match assoc_get k l with Some v => v | None => default end)
  | _ => Raise AttributeError
  end.

(** [d.items()] *)
Definition py_items (d : value) : res (list (string * value)) :=
  match d with
  | VDict l => Ok l
  | _ => Raise AttributeError
  end.

(** [d.keys()] *)
Definition py_keys (d : value) : res (list string) :=
  match d with
  | VDict l => Ok (map fst l)
  | _ => Raise AttributeError
  end.

(** [for x in v]: the items of a list, the keys of a dict, the characters
    of a string. *)
Definition py_iter (v : value) : res (list value) :=
  match v with
  | VList l => Ok l
  | VDict d => Ok (map (fun kv => VStr (fst kv)) d)
  | VStr s => Ok (map VStr (utf8_chars s))
  | _ => Raise TypeError
  end.

(** [a == b]. [True == 1]; two dicts are equal when they hold the same
    items, in any order. *)
Fixpoint py_eq (a b : value) {struct a} : bool :=
  match a, b with
  | VNone, VNone => true
  | VBool x, VBool y => Bool.eqb x y
  | VBool x, VInt y => Z.b2z x =? y
  | VInt x, VBool y => x =? Z.b2z y
  | VInt x, VInt y => x =? y
  | VStr x, VStr y => String.eqb x y
  | VList l1, VList l2 =>
      (fix eq_list (l1 l2 : list value) {struct l1} : bool :=
         match l1, l2 with
         | [], [] => true
         | x :: r1, y :: r2 => py_eq x y && eq_list r1 r2
         | _, _ => false
         end) l1 l2
  | VDict d1, VDict d2 =>
      (length d1 =? length d2)%nat &&
      (fix eq_items (d1 : list (string * value)) {struct d1} : bool :=
         match d1 with
         | [] => true
         | (k, x) :: r1 =>
             match assoc_get k d2 with
             | Some y => py_eq x y && eq_items r1
             | None => false
             end
         end) d1
  | _, _ => false
  end.

(** The hashable values, up to [==]: what a [set] or the keys of a [dict]
    hold. *)
Inductive hkey : Type :=
| KNone
| KNum (z : Z)
| KStr (s : string).

#[global] Instance hkey_eq_dec : EqDecision hkey.
Proof. solve_decision. Defined.

#[global] Instance hkey_countable : Countable hkey.
Proof.
  refine (inj_countable'
    (fun k => match k with
              | KNone => inl tt
              | KNum z => inr (inl z)
              | KStr s => inr (inr s)
              end)
    (fun x => match x with
              | inl _ => KNone
              | inr (inl z) => KNum z
              | inr (inr s) => KStr s
              end) _).
  intros []; reflexivity.
Defined.

(** [hash(v)]: lists and dicts are unhashable. *)
Definition py_hash (v : value) : res hkey :=
  match v with
  | VNone => Ok KNone
  | VBool b => Ok (KNum (Z.b2z b))
  | VInt z => Ok (KNum z)
  | VStr s => Ok (KStr s)
  | VList _ | VDict _ => Raise TypeError
  end.

Section Runtime.
Context {R : PyRuntime}.

(** [repr(v)] and [str(v)]. *)
Fixpoint py_repr (v : value) : string :=
  match v with
  | VNone => "None"
  | VBool true => "True"
  | VBool false => "False"
  | VInt z => str_of_Z z
  | VStr s => str_repr s
  | VList l => "[" +:+ join ", " (map py_repr l) +:+ "]"
  | VDict d =>
      "{" +:+ join ", " (map (fun kv => str_repr (fst kv) +:+ ": " +:+ py_repr (snd kv)) d)
          +:+ "}"
  end.

Definition py_str (v : value) : string :=
  match v with
  | VStr s => s
  | _ => py_repr v
  end.

(** [x in v] for a [str] [x]: substring of a string, item of a list, key of
    a dict. *)
Definition py_in (x : string) (v : value) : res bool :=
  match v with
  | VStr s => Ok (str_contains x s)
  | VList l => Ok (existsb (py_eq (VStr x)) l)
  | VDict d => Ok (existsb (fun kv => String.eqb x (fst kv)) d)
  | _ => Raise TypeError
  end.

(** [v.lower()], [v.split()]: methods of [str] only. *)
Definition py_lower (v : value) : res string :=
  match v with
  | VStr s => Ok (str_lower s)
  | _ => Raise AttributeError
  end.

Definition py_split (v : value) : res (list string) :=
  match v with
  | VStr s => Ok (str_split s)
  | _ => Raise AttributeError
  end.

End Runtime.

(** ** The auditor object and the monad of its methods *)

(** The five documents loaded by [__init__]; no method assigns them. *)
Record bundle : Type := mkBundle {
  plants : value;
  soil_mixes : value;
  components : value;
  fertilizers : value;
  water_reqs : value
}.

(** [self.issues], [self.warnings] and what was printed so far (one entry
    per call of [print]). *)
Record auditor : Type := mkAuditor {
  issues : list string;
  warnings : list string;
  stdout : list string
}.

Definition new_auditor : auditor :=
  {| issues := []; warnings := []; stdout := [] |}.

Definition M (A : Type) : Type := auditor -> res A * auditor.

#[global] Instance M_ret : MRet M := fun _ a st => (Ok a, st).
#[global] Instance M_bind : MBind M := fun _ _ f m st =>
  match m st with
  | (Ok a, st') => f a st'
  | (Raise e, st') => (Raise e, st')
  end.

Definition lift {A} (r : res A) : M A := fun st => (r, st).

Definition raise {A} (e : exn) : M A := fun st => (Raise e, st).

Definition append_issue (msg : string) : M unit := fun st =>
  (Ok tt, {| issues := issues st ++ [msg]; warnings := warnings st; stdout := stdout st |}).

Definition append_warning (msg : string) : M unit := fun st =>
  (Ok tt, {| issues := issues st; warnings := warnings st ++ [msg]; stdout := stdout st |}).

Definition print (line : string) : M unit := fun st =>
  (Ok tt, {| issues := issues st; warnings := warnings st; stdout := stdout st ++ [line] |}).

Definition get_issues : M (list string) := fun st => (Ok (issues st), st).
Definition get_warnings : M (list string) := fun st => (Ok (warnings st), st).

(** [try: body except: handler] with a bare [except]: whatever [body] did to
    the object before raising stays done. *)
Definition try_except {A} (body handler : M A) : M A := fun st =>
  match body st with
  | (Ok a, st') => (Ok a, st')
  | (Raise _, st') => handler st'
  end.

(** [for x in l: body] *)
Fixpoint for_each {A} (l : list A) (body : A -> M unit) : M unit :=
  match l with
  | [] => mret tt
  | x :: r => body x ;; for_each r body
  end.

(** The truth value of a list. *)
Definition nonempty {A} (l : list A) : bool :=
  match l with
  | [] => false
  | _ :: _ => true
  end.

(** [if c: body] *)
Definition when (c : bool) (body : M unit) : M unit :=
  if c then body else mret tt.

(** ** The messages *)

Definition msg_bad_mix (plant_id mix_number : string) : string :=
  "[!] Plant '" +:+ plant_id +:+ "' references non-existent mix #" +:+ mix_number.

Definition msg_bad_alt_mix (plant_id alt_mix : string) : string :=
  "[W] Plant '" +:+ plant_id +:+ "' alternative_mix '" +:+ alt_mix +:+ "' might be invalid".

Definition msg_missing_water (plant : string) : string :=
  "[!] Plant '" +:+ plant +:+ "' missing water requirements".

Definition msg_unknown_plant (plant : string) : string :=
  "[W] Water requirements exist for unknown plant '" +:+ plant +:+ "'".

Definition msg_missing_component (comp : string) : string :=
  "[W] Expected component '" +:+ comp +:+ "' not found in components.yaml".

Definition msg_wrong_group (plant_name group_id assigned_group : string) : string :=
  "[!] Plant '" +:+ plant_name +:+ "' in " +:+ group_id
    +:+ " but assigned to group " +:+ assigned_group.

Definition msg_orphan_member (plant_name group_id : string) : string :=
  "[W] Plant '" +:+ plant_name +:+ "' in " +:+ group_id
    +:+ " but not in individual_requirements".

Definition msg_wick_expected (plant_id watering_method : string) : string :=
  "[W] Plant '" +:+ plant_id +:+ "': wick_watering recommended=true but method='"
    +:+ watering_method +:+ "'".

Definition msg_wick_unexpected (plant_id : string) : string :=
  "[W] Plant '" +:+ plant_id
    +:+ "': wick_watering recommended=false but method includes Фитиль".

Definition msg_ppm_reversed (plant_id ppm_range : string) : string :=
  "[!] Plant '" +:+ plant_id +:+ "': Invalid PPM range " +:+ ppm_range +:+ " (min >= max)".

Definition msg_ppm_unusual (plant_id ppm_range : string) : string :=
  "[W] Plant '" +:+ plant_id +:+ "': Unusual PPM range " +:+ ppm_range.

Definition msg_ppm_unparsed (plant_id ppm_range : string) : string :=
  "[W] Plant '" +:+ plant_id +:+ "': Cannot parse PPM range '" +:+ ppm_range +:+ "'".

Definition msg_ph_reversed (plant_id ph_range : string) : string :=
  "[!] Plant '" +:+ plant_id +:+ "': Invalid pH range " +:+ ph_range +:+ " (min >= max)".

Definition msg_ph_unusual (plant_id ph_range : string) : string :=
  "[W] Plant '" +:+ plant_id +:+ "': Unusual pH range " +:+ ph_range.

Definition msg_ph_unparsed (plant_id ph_range : string) : string :=
  "[W] Plant '" +:+ plant_id +:+ "': Cannot parse pH range '" +:+ ph_range +:+ "'".

Definition msg_duplicate (name first_id plant_id : string) : string :=
  "[W] Duplicate plant name '" +:+ name +:+ "': " +:+ first_id +:+ " and " +:+ plant_id.

(** ** The rules *)

Section Rules.
Context {R : PyRuntime}.

(** *** check_plant_soil_references (lines 49-82) *)

(** Lines 57-60: the set of the mix numbers, as strings. *)
Fixpoint valid_mix_numbers (valid_mixes : gset string) (items : list (string * value))
  : res (gset string) :=
  match items with
  | [] => Ok valid_mixes
  | (mix_id, mix_data) :: r =>
      number ← py_get mix_data "number" (VStr "");
      valid_mix_numbers (valid_mixes ∪ {[ py_str number ]}) r
  end.

(** Line 76: [alt_mix.split()[0] if alt_mix else ''] *)
Definition first_token (alt_mix : value) : res string :=
  if truthy alt_mix then
    tokens ← py_split alt_mix;
    match tokens with
    | t :: _ => Ok t
    | [] => Raise IndexError
    end
  else Ok "".

(** Lines 64-80: the body of the loop over the plants. *)
Definition plant_soil_step (valid_mixes : gset string) (plant_id : string)
    (plant_data : value) : M unit :=
  soil ← lift (py_get plant_data "soil" (VDict []));
  mix_value ← lift (py_get soil "mix_number" (VStr ""));
  let mix_number := py_str mix_value in
  when (truthy (VStr mix_number) && negb (bool_decide (mix_number ∈ valid_mixes)))
    (append_issue (msg_bad_mix plant_id mix_number));;
  alt_mix ← lift (py_get soil "alternative_mix" (VStr ""));
  when (truthy alt_mix)
    (alt_num ← lift (first_token alt_mix);
     when (truthy (VStr alt_num) && negb (bool_decide (alt_num ∈ valid_mixes)))
       (append_warning (msg_bad_alt_mix plant_id (py_str alt_mix)))).

Definition check_plant_soil_references (b : bundle) : M unit :=
  print "[*] Checking plant -> soil mix references...";;
  plants_data ← lift (py_get (plants b) "plants" (VDict []));
  soil_mixes_data ← lift (py_get (soil_mixes b) "soil_mixes" (VDict []));
  mixes ← lift (py_items soil_mixes_data);
  valid_mixes ← lift (valid_mix_numbers ∅ mixes);
  plant_items ← lift (py_items plants_data);
  for_each plant_items (fun kv => plant_soil_step valid_mixes (fst kv) (snd kv));;
  print ("   [+] Plant -> soil mix references checked" +:+ nl).

(** *** check_plant_water_references (lines 84-109) *)

(** [set(d.keys())]; the order in which a [set] is iterated is not
    specified by Python, and neither is the one of [elements]. *)
Definition key_set (keys : list string) : gset string := list_to_set keys.

Definition check_plant_water_references (b : bundle) : M unit :=
  print "[*] Checking plant -> water requirements...";;
  plants_data ← lift (py_get (plants b) "plants" (VDict []));
  water_requirements ← lift (py_get (water_reqs b) "water_requirements" (VDict []));
  water_individual ← lift (py_get water_requirements "individual_requirements" (VDict []));
  plant_keys ← lift (py_keys plants_data);
  water_keys ← lift (py_keys water_individual);
  let plants_set := key_set plant_keys in
  let water_set := key_set water_keys in
  let missing_water := plants_set ∖ water_set in
  let extra_water := water_set ∖ plants_set in
  when (negb (bool_decide (missing_water = ∅)))
    (for_each (elements missing_water)
       (fun plant => append_issue (msg_missing_water plant)));;
  when (negb (bool_decide (extra_water = ∅)))
    (for_each (elements extra_water)
       (fun plant => append_warning (msg_unknown_plant plant)));;
  print ("   [+] Plant -> water requirements checked" +:+ nl).

(** *** check_soil_component_references (lines 111-145) *)

(** Lines 121-124 *)
Fixpoint add_component_names (valid_components : gset hkey)
    (items : list (string * value)) : res (gset hkey) :=
  match items with
  | [] => Ok valid_components
  | (comp_id, comp_data) :: r =>
      comp_name ← py_get comp_data "name" (VStr "");
      if truthy comp_name then
        h ← py_hash comp_name;
        add_component_names (valid_components ∪ {[ h ]}) r
      else add_component_names valid_components r
  end.

(** Lines 119-124 *)
Fixpoint collect_components (components_data : value) (valid_components : gset hkey)
    (categories : list string) : res (gset hkey) :=
  match categories with
  | [] => Ok valid_components
  | category :: r =>
      category_data ← py_get components_data category (VDict []);
      items ← py_items category_data;
      valid ← add_component_names valid_components items;
      collect_components components_data valid r
  end.

Definition expected_components : list string :=
  [ "Универсальный грунт Premium";
    "Кокосовый субстрат";
    "Перлит";
    "Вермикулит";
    "Смесь для орхидей";
    "Древесный уголь";
    "Кокос-перлит" ].

(** Line 139: [any(comp.lower() in vc.lower() for vc in valid_components)];
    a member that is not a [str] has no [lower]. *)
Fixpoint any_component (comp : string) (members : list hkey) : res bool :=
  match members with
  | [] => Ok false
  | KStr vc :: r =>
      if str_contains (str_lower comp) (str_lower vc) then Ok true
      else any_component comp r
  | _ :: _ => Raise AttributeError
  end.

Definition check_soil_component_references (b : bundle) : M unit :=
  print "[*] Checking soil mix -> component references...";;
  components_data ← lift (py_get (components b) "soil_components" (VDict []));
  valid_components ← lift (collect_components components_data ∅
                             ["basic_substrates"; "additional_components"]);
  for_each expected_components (fun comp =>
    found ← lift (any_component comp (elements valid_components));
    when (negb found) (append_warning (msg_missing_component comp)));;
  print ("   [+] Soil mix -> component references checked" +:+ nl).

(** *** check_water_group_consistency (lines 147-180) *)

(** Line 167: [group_id.split('_')[-1].upper()] *)
Definition expected_group_of (group_id : string) : string :=
  str_upper (last_item (split_on "_" group_id)).

(** Lines 162-173: the inner loop, left by [break] at the first entry whose
    [plant_name] is the listed one; the result is [found]. *)
Fixpoint find_requirement (group_id : string) (plant_name : value)
    (items : list (string * value)) : M bool :=
  match items with
  | [] => mret false
  | (plant_id, plant_data) :: r =>
      entry_name ← lift (py_get plant_data "plant_name" (VStr ""));
      if py_eq entry_name plant_name then
        assigned_group ← lift (py_get plant_data "group" (VStr ""));
        let expected_group := expected_group_of group_id in
        when (negb (py_eq assigned_group (VStr expected_group)))
          (append_issue (msg_wrong_group (py_str plant_name) group_id
                           (py_str assigned_group)));;
        mret true
      else find_requirement group_id plant_name r
  end.

(** Lines 160-178: the body of the loop over the names a group lists. *)
Definition group_member_step (individual : value) (group_id : string)
    (plant_name : value) : M unit :=
  items ← lift (py_items individual);
  found ← find_requirement group_id plant_name items;
  when (negb found)
    (append_warning (msg_orphan_member (py_str plant_name) group_id)).

(** Lines 157-178: the body of the loop over the groups. *)
Definition water_group_step (individual : value) (group_id : string)
    (group_data : value) : M unit :=
  group_plants ← lift (py_get group_data "plants" (VList []));
  names ← lift (py_iter group_plants);
  for_each names (group_member_step individual group_id).

Definition check_water_group_consistency (b : bundle) : M unit :=
  print "[*] Checking water group consistency...";;
  water_requirements ← lift (py_get (water_reqs b) "water_requirements" (VDict []));
  individual ← lift (py_get water_requirements "individual_requirements" (VDict []));
  groups ← lift (py_get water_requirements "water_groups" (VDict []));
  group_items ← lift (py_items groups);
  for_each group_items (fun kv => water_group_step individual (fst kv) (snd kv));;
  print ("   [+] Water group consistency checked" +:+ nl).

(** *** check_wick_watering_consistency (lines 182-208) *)

(** Line 195: ['Фитиль' not in watering_method and
    'фитиль' not in watering_method.lower()] *)
Definition lacks_wick_keyword (watering_method : value) : res bool :=
  literal ← py_in "Фитиль" watering_method;
  if negb literal then
    lowered ← py_lower watering_method;
    Ok (negb (str_contains "фитиль" lowered))
  else Ok false.

(** Line 201: ['Фитиль' in watering_method or
    'фитиль' in watering_method.lower()] *)
Definition has_wick_keyword (watering_method : value) : res bool :=
  literal ← py_in "Фитиль" watering_method;
  if literal : bool then Ok true
  else
    lowered ← py_lower watering_method;
    Ok (str_contains "фитиль" lowered).

(** Line 203: ['Ручной' not in watering_method] *)
Definition lacks_manual_keyword (watering_method : value) : res bool :=
  manual ← py_in "Ручной" watering_method;
  Ok (negb manual).

(** Lines 189-206: the body of the loop over the plants. *)
Definition wick_step (plant_id : string) (plant_data : value) : M unit :=
  wick ← lift (py_get plant_data "wick_watering" (VDict []));
  watering ← lift (py_get plant_data "watering" (VDict []));
  watering_method ← lift (py_get watering "method" (VStr ""));
  recommended ← lift (py_get wick "recommended" (VBool false));
  expected ← lift (if truthy recommended then lacks_wick_keyword watering_method
                   else Ok false);
  when expected
    (append_warning (msg_wick_expected plant_id (py_str watering_method)));;
  when (negb (truthy recommended) && negb (is_none recommended))
    (wick_method ← lift (has_wick_keyword watering_method);
     when wick_method
       (only_wick ← lift (lacks_manual_keyword watering_method);
        when only_wick (append_warning (msg_wick_unexpected plant_id)))).

Definition check_wick_watering_consistency (b : bundle) : M unit :=
  print "[*] Checking wick watering consistency...";;
  plants_data ← lift (py_get (plants b) "plants" (VDict []));
  plant_items ← lift (py_items plants_data);
  for_each plant_items (fun kv => wick_step (fst kv) (snd kv));;
  print ("   [+] Wick watering consistency checked" +:+ nl).

(** *** check_ppm_ph_ranges (lines 210-254) *)

(** [lo, hi = map(conv, tokens)]: exactly two tokens, both accepted by
    [conv]; anything else is a [ValueError]. *)
Definition unpack_pair {A} (conv : string -> option A) (tokens : list string)
  : res (A * A) :=
  match tokens with
  | [a; b] =>
      match conv a, conv b with
      | Some lo, Some hi => Ok (lo, hi)
      | _, _ => Raise ValueError
      end
  | _ => Raise ValueError
  end.

(** Lines 221-235 *)
Definition ppm_check (plant_id : string) (ppm_range : value) : M unit :=
  when (truthy ppm_range && str_contains "-" (py_str ppm_range))
    (try_except
       ('(ppm_min, ppm_max) ← lift (unpack_pair py_int (split_on "-" (py_str ppm_range)));
        when (ppm_min >=? ppm_max)
          (append_issue (msg_ppm_reversed plant_id (py_str ppm_range)));;
        when ((ppm_min <? 0) || (ppm_max >? 500))
          (append_warning (msg_ppm_unusual plant_id (py_str ppm_range))))
       (append_warning (msg_ppm_unparsed plant_id (py_str ppm_range)))).

(** Lines 238-252; [a >= b] on floats is [b <= a], [a > b] is [b < a];
    4.0 and 8.0 are the floats of 4 and 8. *)
Definition ph_check (plant_id : string) (ph_range : value) : M unit :=
  when (truthy ph_range && str_contains "-" (py_str ph_range))
    (try_except
       ('(ph_min, ph_max) ← lift (unpack_pair py_float (split_on "-" (py_str ph_range)));
        when (float_leb ph_max ph_min)
          (append_issue (msg_ph_reversed plant_id (py_str ph_range)));;
        when (float_ltb ph_min (float_of_Z 4) || float_ltb (float_of_Z 8) ph_max)
          (append_warning (msg_ph_unusual plant_id (py_str ph_range))))
       (append_warning (msg_ph_unparsed plant_id (py_str ph_range)))).

(** Lines 217-252: the body of the loop over the requirements. *)
Definition range_step (plant_id : string) (plant_data : value) : M unit :=
  ppm_range ← lift (py_get plant_data "ppm_range" (VStr ""));
  ph_range ← lift (py_get plant_data "ph_range" (VStr ""));
  ppm_check plant_id ppm_range;;
  ph_check plant_id ph_range.

Definition check_ppm_ph_ranges (b : bundle) : M unit :=
  print "[*] Checking PPM and pH ranges...";;
  water_requirements ← lift (py_get (water_reqs b) "water_requirements" (VDict []));
  water_individual ← lift (py_get water_requirements "individual_requirements" (VDict []));
  items ← lift (py_items water_individual);
  for_each items (fun kv => range_step (fst kv) (snd kv));;
  print ("   [+] PPM and pH ranges checked" +:+ nl).

(** *** check_duplicates_and_conflicts (lines 256-273) *)

(** Lines 264-271: the loop, with the dict [plant_names] it fills. *)
Fixpoint duplicates_loop (plant_names : gmap hkey string)
    (items : list (string * value)) : M unit :=
  match items with
  | [] => mret tt
  | (plant_id, plant_data) :: r =>
      name ← lift (py_get plant_data "name" (VStr ""));
      key ← lift (py_hash name);
      match plant_names !! key with
      | Some first_id =>
          append_warning (msg_duplicate (py_str name) first_id plant_id);;
          duplicates_loop plant_names r
      | None => duplicates_loop (<[key := plant_id]> plant_names) r
      end
  end.

Definition check_duplicates_and_conflicts (b : bundle) : M unit :=
  print "[*] Checking for duplicates and conflicts...";;
  plants_data ← lift (py_get (plants b) "plants" (VDict []));
  plant_items ← lift (py_items plants_data);
  duplicates_loop ∅ plant_items;;
  print ("   [+] Duplicates and conflicts checked" +:+ nl).

(** *** print_report (lines 275-305) *)

Definition rule_line : string := str_repeat 60 "=".

Definition print_report : M unit :=
  print (nl +:+ rule_line);;
  print "AUDIT REPORT";;
  print (rule_line +:+ nl);;
  found_issues ← get_issues;
  found_warnings ← get_warnings;
  if negb (nonempty found_issues)
     && negb (nonempty found_warnings) then
    print ("[OK] NO ISSUES FOUND - Database is consistent!" +:+ nl)
  else
    when (nonempty found_issues)
      (print ("[!] CRITICAL ISSUES (" +:+ str_of_len found_issues +:+ "):" +:+ nl);;
       for_each found_issues (fun issue => print ("  " +:+ issue));;
       print "");;
    when (nonempty found_warnings)
      (print ("[W]  WARNINGS (" +:+ str_of_len found_warnings +:+ "):" +:+ nl);;
       for_each found_warnings (fun warning => print ("  " +:+ warning));;
       print "");;
    print rule_line;;
    print ("Summary: " +:+ str_of_len found_issues +:+ " issues, "
             +:+ str_of_len found_warnings +:+ " warnings");;
    print (rule_line +:+ nl);;
    if nonempty found_issues then raise (SystemExit 1)
    else raise (SystemExit 0).

(** *** audit_all (lines 35-47) *)

Definition run_rules (b : bundle) : M unit :=
  check_plant_soil_references b;;
  check_plant_water_references b;;
  check_soil_component_references b;;
  check_water_group_consistency b;;
  check_wick_watering_consistency b;;
  check_ppm_ph_ranges b;;
  check_duplicates_and_conflicts b.

Definition banner : string := "[*] Starting Plants Database Audit..." +:+ nl.

Definition audit_all (b : bundle) : M unit :=
  print banner;;
  run_rules b;;
  print_report.

End Rules.

(** ** Loading (lines 14-33) and the process (lines 307-309) *)

(** What opening and parsing one file gives: the value built by
    [yaml.safe_load], or the text of the exception raised on the way. *)
Inductive loaded : Type :=
| Loaded (document : value)
| Failed (error : string).

(** The five files of the base directory. *)
Record files : Type := mkFiles {
  plants_yaml : loaded;
  soil_mixes_yaml : loaded;
  components_yaml : loaded;
  fertilizers_yaml : loaded;
  water_requirements_yaml : loaded
}.

Definition msg_cannot_load (filename error : string) : string :=
  "[!] CRITICAL: Cannot load " +:+ filename +:+ ": " +:+ error.

Definition _load_yaml (filename : string) (file : loaded) : M value :=
  match file with
  | Loaded document => mret document
  | Failed error => append_issue (msg_cannot_load filename error);; mret (VDict [])
  end.

Definition __init__ (base : files) : M bundle :=
  plants_data ← _load_yaml "plants.yaml" (plants_yaml base);
  soil_mixes_data ← _load_yaml "soil-mixes.yaml" (soil_mixes_yaml base);
  components_data ← _load_yaml "components.yaml" (components_yaml base);
  fertilizers_data ← _load_yaml "fertilizers.yaml" (fertilizers_yaml base);
  water_reqs_data ← _load_yaml "water-requirements.yaml" (water_requirements_yaml base);
  mret {| plants := plants_data; soil_mixes := soil_mixes_data;
          components := components_data; fertilizers := fertilizers_data;
          water_reqs := water_reqs_data |}.

(** The exit status of the interpreter: 0 when the script runs to its end,
    the argument of [sys.exit], 1 for any other uncaught exception. *)
Definition exit_status (outcome : res unit) : Z :=
  match outcome with
  | Ok _ => 0
  | Raise (SystemExit code) => code
  | Raise _ => 1
  end.

(** The script: build the auditor, run the audit. *)
Definition script {R : PyRuntime} (base : files) : res unit * auditor :=
  (b ← __init__ base; audit_all b) new_auditor.

(** The files of a bundle that loaded. *)
Definition files_of (b : bundle) : files :=
  {| plants_yaml := Loaded (plants b);
     soil_mixes_yaml := Loaded (soil_mixes b);
     components_yaml := Loaded (components b);
     fertilizers_yaml := Loaded (fertilizers b);
     water_requirements_yaml := Loaded (water_reqs b) |}.

(** The script on a bundle that loaded: the audit of the bundle by a new
    auditor. *)
Definition main {R : PyRuntime} (b : bundle) : res unit * auditor :=
  audit_all b new_auditor.

(** ** A reference run time

    [ref_runtime] is an executable instance of [PyRuntime]: case mapping of
    the ASCII and Cyrillic letters, ASCII white space and digits, and
    binary64 numbers rounded to nearest even from the exact decimal value. *)

Module Ref.

Definition code (c : ascii) : N := N_of_ascii c.
Definition chr (n : N) : ascii := ascii_of_N n.
Definition between (lo hi n : N) : bool := ((lo <=? n) && (n <=? hi))%N.

(** A-Z, and the two-byte UTF-8 forms of U+0400..U+042F, to lower case. *)
Fixpoint lower (s : string) : string :=
  match s with
  | EmptyString => EmptyString
  | String c t =>
      let n := code c in
      if between 65 90 n then String (chr (n + 32)) (lower t)
      else if (n =? 208)%N then
        match t with
        | String d t' =>
            let m := code d in
            if between 144 159 m then String c (String (chr (m + 32)) (lower t'))
            else if between 160 175 m then
              String (chr 209) (String (chr (m - 32)) (lower t'))
            else if between 128 143 m then
              String (chr 209) (String (chr (m + 16)) (lower t'))
            else String c (String d (lower t'))
        | EmptyString => String c EmptyString
        end
      else String c (lower t)
  end.

(** a-z, and the two-byte UTF-8 forms of U+0430..U+045F, to upper case. *)
Fixpoint upper (s : string) : string :=
  match s with
  | EmptyString => EmptyString
  | String c t =>
      let n := code c in
      if between 97 122 n then String (chr (n - 32)) (upper t)
      else if (n =? 208)%N then
        match t with
        | String d t' =>
            let m := code d in
            if between 176 191 m then String c (String (chr (m - 32)) (upper t'))
            else String c (String d (upper t'))
        | EmptyString => String c EmptyString
        end
      else if (n =? 209)%N then
        match t with
        | String d t' =>
            let m := code d in
            if between 128 143 m then
              String (chr 208) (String (chr (m + 32)) (upper t'))
            else if between 144 159 m then
              String (chr 208) (String (chr (m - 16)) (upper t'))
            else String c (String d (upper t'))
        | EmptyString => String c EmptyString
        end
      else String c (upper t)
  end.

(** Tab, line feed, vertical tab, form feed, carriage return, the four
    separators U+001C..U+001F and the space. *)
Definition is_space (c : ascii) : bool :=
  let n := code c in between 9 13 n || between 28 32 n.

Definition is_digit (c : ascii) : bool := between 48 57 (code c).

Definition digit (c : ascii) : Z := Z.of_N (code c) - 48.

Fixpoint split (s : string) : list string :=
  match s with
  | EmptyString => []
  | String c t =>
      if is_space c then split t
      else match t with
           | EmptyString => [String c EmptyString]
           | String d _ =>
               if is_space d then String c EmptyString :: split t
               else match split t with
                    | h :: r => String c h :: r
                    | [] => [String c EmptyString]
                    end
           end
  end.

Fixpoint lstrip (s : string) : string :=
  match s with
  | String c t => if is_space c then lstrip t else s
  | EmptyString => EmptyString
  end.

Fixpoint rstrip (s : string) : string :=
  match s with
  | EmptyString => EmptyString
  | String c t =>
      match rstrip t with
      | EmptyString => if is_space c then EmptyString else String c EmptyString
      | r => String c r
      end
  end.

Definition strip (s : string) : string := rstrip (lstrip s).

(** [repr] of a string: single quotes unless the string holds one and no
    double quote; the quote, the backslash and the control characters are
    escaped. *)
Definition dquote : ascii := chr 34.
Definition squote : ascii := chr 39.
Definition backslash : ascii := chr 92.

Definition hex_digit (n : N) : ascii :=
  if (n <? 10)%N then chr (48 + n) else chr (87 + n).

Fixpoint escape (quote : ascii) (s : string) : string :=
  match s with
  | EmptyString => EmptyString
  | String c t =>
      let n := code c in
      let rest := escape quote t in
      if Ascii.eqb c quote || Ascii.eqb c backslash then String backslash (String c rest)
      else if (n =? 10)%N then String backslash (String "n" rest)
      else if (n =? 13)%N then String backslash (String "r" rest)
      else if (n =? 9)%N then String backslash (String "t" rest)
      else if (n <? 32)%N || (n =? 127)%N then
        String backslash (String "x" (String (hex_digit (n / 16))
                                        (String (hex_digit (n mod 16)) rest)))
      else String c rest
  end.

Definition has_char (c : ascii) (s : string) : bool :=
  str_contains (String c EmptyString) s.

Definition repr (s : string) : string :=
  let quote := if has_char squote s && negb (has_char dquote s) then dquote else squote in
  String quote (escape quote s) +:+ String quote EmptyString.

(** A run of digits in which single underscores may separate digits: the
    value read (after [acc]), the number of digits, and what follows. *)
Fixpoint read_digits (acc : Z) (n : nat) (s : string) : Z * nat * string :=
  match s with
  | EmptyString => (acc, n, s)
  | String c t =>
      if is_digit c then read_digits (10 * acc + digit c) (S n) t
      else if Ascii.eqb c "_" && (0 <? n)%nat then
        match t with
        | String d t' =>
            if is_digit d then read_digits (10 * acc + digit d) (S n) t'
            else (acc, n, s)
        | EmptyString => (acc, n, s)
        end
      else (acc, n, s)
  end.

(** An optional sign: whether it is a minus, and what follows. *)
Definition read_sign (s : string) : bool * string :=
  match s with
  | String "-" t => (true, t)
  | String "+" t => (false, t)
  | _ => (false, s)
  end.

Definition int (s : string) : option Z :=
  let '(neg, body) := read_sign (strip s) in
  match read_digits 0 0 body with
  | (v, S _, EmptyString) => Some (if neg then - v else v)
  | _ => None
  end.

(** The binary64 number nearest to [m * 10 ^ e], ties to even. For a
    negative [e] the quotient is computed with 64 bits more than the
    divisor has, and a last bit records whether the division was exact. *)
Definition float_of_decimal (neg : bool) (m e : Z) : pyfloat :=
  match m with
  | Zpos _ =>
      if 0 <=? e then
        binary_normalize float_prec float_emax (if neg then - (m * 10 ^ e) else m * 10 ^ e) 0 false
      else
        let d := 10 ^ (- e) in
        let shift := Z.max 0 (64 + Z.log2 d - Z.log2 m) in
        let q := (m * 2 ^ shift) / d in
        let sticky := if (m * 2 ^ shift) mod d =? 0 then 0 else 1 in
        let mant := 2 * q + sticky in
        binary_normalize float_prec float_emax (if neg then - mant else mant) (- (shift + 1)) false
  | _ => S754_zero neg
  end.

Definition read_exponent (s : string) : option Z :=
  match s with
  | EmptyString => Some 0
  | String c t =>
      if Ascii.eqb c "e" || Ascii.eqb c "E" then
        let '(neg, body) := read_sign t in
        match read_digits 0 0 body with
        | (v, S _, EmptyString) => Some (if neg then - v else v)
        | _ => None
        end
      else None
  end.

Definition float (s : string) : option pyfloat :=
  let '(neg, body) := read_sign (strip s) in
  let word := lower body in
  if String.eqb word "inf" || String.eqb word "infinity" then Some (S754_infinity neg)
  else if String.eqb word "nan" then Some S754_nan
  else
    let '(whole, n_whole, after_whole) := read_digits 0 0 body in
    let '(mantissa, n_fraction, after_fraction) :=
      match after_whole with
      | String "." t => read_digits whole 0 t
      | _ => (whole, O, after_whole)
      end in
    if (0 <? n_whole + n_fraction)%nat then
      match read_exponent after_fraction with
      | Some e => Some (float_of_decimal neg mantissa (e - Z.of_nat n_fraction))
      | None => None
      end
    else None.

End Ref.

#[global] Instance ref_runtime : PyRuntime := {|
  str_lower := Ref.lower;
  str_upper := Ref.upper;
  str_split := Ref.split;
  str_repr := Ref.repr;
  py_int := Ref.int;
  py_float := Ref.float
|}.

(** ** Views of a bundle *)

(** The collections the rules read, with the defaults of the code. *)
Definition plants_of (b : bundle) : res value :=
  py_get (plants b) "plants" (VDict []).

Definition soil_mixes_of (b : bundle) : res value :=
  py_get (soil_mixes b) "soil_mixes" (VDict []).

Definition individual_of (b : bundle) : res value :=
  water_requirements ← py_get (water_reqs b) "water_requirements" (VDict []);
  py_get water_requirements "individual_requirements" (VDict []).

Definition water_groups_of (b : bundle) : res value :=
  water_requirements ← py_get (water_reqs b) "water_requirements" (VDict []);
  py_get water_requirements "water_groups" (VDict []).

(** Modelled from the spec: the report's flag "is healthy", which audit.py
    does not compute; the spec derives it as [Issues.isEmpty()]. *)
Definition is_healthy (a : auditor) : bool := negb (nonempty (issues a)).

(** The bundle of five empty documents, and the one whose documents hold
    their collections, all empty. *)
Definition empty_bundle : bundle :=
  mkBundle (VDict []) (VDict []) (VDict []) (VDict []) (VDict []).

Definition empty_collections : bundle :=
  {| plants := VDict [("plants", VDict [])];
     soil_mixes := VDict [("soil_mixes", VDict [])];
     components := VDict [("soil_components",
                           VDict [("basic_substrates", VDict []);
                                  ("additional_components", VDict [])])];
     fertilizers := VDict [("fertilizers", VDict [])];
     water_reqs := VDict [("water_requirements",
                           VDict [("individual_requirements", VDict []);
                                  ("water_groups", VDict [])])] |}.

(** ** The rules as the specification words them *)

Section Specification.
Context {R : PyRuntime}.

(** The mix number of a plant, as a string; the empty string when the
    plant has none. *)
Definition mix_number_of (plant_data : value) : res string :=
  soil ← py_get plant_data "soil" (VDict []);
  mix_number ← py_get soil "mix_number" (VStr "");
  Ok (py_str mix_number).

(** Rule 4.2, first half: one Issue for a plant whose mix number is not
    empty and is none of the valid ones. *)
Definition spec_mix_issue (valid : gset string) (plant_id : string)
    (plant_data : value) : list string :=
  match mix_number_of plant_data with
  | Ok mix_number =>
      if bool_decide (mix_number ≠ "" ∧ mix_number ∉ valid)
      then [msg_bad_mix plant_id mix_number]
      else []
  | Raise _ => []
  end.

(** Rule 4.5. The names a group lists. *)
Definition group_names (group_data : value) : res (list value) :=
  group_plants ← py_get group_data "plants" (VList []);
  py_iter group_plants.

Definition listed (group_data : value) : list value :=
  match group_names group_data with
  | Ok names => names
  | Raise _ => []
  end.

Definition is_dict (v : value) : bool :=
  match v with VDict _ => true | _ => false end.

(** Whether a requirement bears the listed name. *)
Definition bears_name (plant_name : value) (entry : string * value) : bool :=
  match py_get (snd entry) "plant_name" (VStr "") with
  | Ok entry_name => py_eq entry_name plant_name
  | Raise _ => false
  end.

(** The first requirement that bears the listed name. *)
Definition first_requirement (plant_name : value) (items : list (string * value))
  : option (string * value) :=
  List.find (bears_name plant_name) items.

(** The group a requirement is assigned to. *)
Definition assigned_group_of (plant_data : value) : value :=
  match py_get plant_data "group" (VStr "") with
  | Ok g => g
  | Raise _ => VStr ""
  end.

(** The Issues and the Warnings for one name listed by one group. *)
Definition spec_group_member (items : list (string * value)) (group_id : string)
    (plant_name : value) : list string * list string :=
  match first_requirement plant_name items with
  | Some (_, plant_data) =>
      if py_eq (assigned_group_of plant_data) (VStr (expected_group_of group_id))
      then ([], [])
      else ([msg_wrong_group (py_str plant_name) group_id
               (py_str (assigned_group_of plant_data))], [])
  | None => ([], [msg_orphan_member (py_str plant_name) group_id])
  end.

(** The findings of the rule: group after group, name after name. *)
Definition spec_water_groups (items groups : list (string * value))
  : list string * list string :=
  let findings :=
    flat_map (fun g => map (spec_group_member items (fst g)) (listed (snd g))) groups in
  (concat (map fst findings), concat (map snd findings)).

(** Rule 4.8. The display name of a plant, and the key under which a
    [dict] files it. *)
Definition name_of (plant_data : value) : value :=
  match py_get plant_data "name" (VStr "") with
  | Ok name => name
  | Raise _ => VStr ""
  end.

Definition name_key (plant_data : value) : hkey :=
  match py_hash (name_of plant_data) with
  | Ok key => key
  | Raise _ => KNone
  end.

Definition same_name (plant_data : value) (entry : string * value) : bool :=
  bool_decide (name_key (snd entry) = name_key plant_data).

Definition named (plant_data : value) : bool :=
  is_dict plant_data &&
  match py_hash (name_of plant_data) with Ok _ => true | Raise _ => false end.

(** The Warning of one plant, given the plants before it: the first of them
    that bears its name is the canonical one. *)
Definition spec_duplicate (earlier : list (string * value)) (plant_id : string)
    (plant_data : value) : list string :=
  match List.find (same_name plant_data) earlier with
  | Some (first_id, _) => [msg_duplicate (py_str (name_of plant_data)) first_id plant_id]
  | None => []
  end.

(** The Warnings of the plants [items] that follow the plants [earlier]. *)
Fixpoint spec_duplicates (earlier items : list (string * value)) : list string :=
  match items with
  | [] => []
  | (plant_id, plant_data) :: r =>
      spec_duplicate earlier plant_id plant_data
        ++ spec_duplicates (earlier ++ [(plant_id, plant_data)]) r
  end.

(** Rule 4.6. The flag and the method of a plant. *)
Definition recommended_of (plant_data : value) : res value :=
  wick ← py_get plant_data "wick_watering" (VDict []);
  py_get wick "recommended" (VBool false).

Definition method_of (plant_data : value) : res value :=
  watering ← py_get plant_data "watering" (VDict []);
  py_get watering "method" (VStr "").

(** The method names wick watering: the canonical spelling, or any spelling
    whose lower case is the keyword. *)
Definition wick_keyword (method : string) : bool :=
  str_contains "Фитиль" method || str_contains "фитиль" (str_lower method).

(** The method names manual watering, in this very spelling. *)
Definition manual_keyword (method : string) : bool :=
  str_contains "Ручной" method.

(** The Warnings of one plant, from the value of
    [wick.get('recommended', False)] and the method. *)
Definition spec_wick (plant_id : string) (recommended : value) (method : string)
  : list string :=
  if truthy recommended then
    if wick_keyword method then [] else [msg_wick_expected plant_id method]
  else if is_none recommended then []
  else if wick_keyword method && negb (manual_keyword method)
       then [msg_wick_unexpected plant_id]
       else [].

Definition spec_wick_plant (plant_id : string) (plant_data : value) : list string :=
  match recommended_of plant_data, method_of plant_data with
  | Ok recommended, Ok (VStr method) => spec_wick plant_id recommended method
  | _, _ => []
  end.

(** Rule 4.7. The Issues and the Warnings of the two sub-checks, each a
    function of its own field. *)
Definition ppm_findings (plant_id : string) (ppm_range : value)
  : list string * list string :=
  if truthy ppm_range && str_contains "-" (py_str ppm_range) then
    match unpack_pair py_int (split_on "-" (py_str ppm_range)) with
    | Ok (ppm_min, ppm_max) =>
        (if ppm_min >=? ppm_max then [msg_ppm_reversed plant_id (py_str ppm_range)] else [],
         if (ppm_min <? 0) || (ppm_max >? 500)
         then [msg_ppm_unusual plant_id (py_str ppm_range)] else [])
    | Raise _ => ([], [msg_ppm_unparsed plant_id (py_str ppm_range)])
    end
  else ([], []).

Definition ph_findings (plant_id : string) (ph_range : value)
  : list string * list string :=
  if truthy ph_range && str_contains "-" (py_str ph_range) then
    match unpack_pair py_float (split_on "-" (py_str ph_range)) with
    | Ok (ph_min, ph_max) =>
        (if float_leb ph_max ph_min then [msg_ph_reversed plant_id (py_str ph_range)] else [],
         if float_ltb ph_min (float_of_Z 4) || float_ltb (float_of_Z 8) ph_max
         then [msg_ph_unusual plant_id (py_str ph_range)] else [])
    | Raise _ => ([], [msg_ph_unparsed plant_id (py_str ph_range)])
    end
  else ([], []).

(** A field of a requirement, the empty string when it is absent. *)
Definition field (name : string) (entry : list (string * value)) : value :=
  default (VStr "") (assoc_get name entry).



(** The dict of line 263 files each name under the first plant bearing it. *)
Definition names_filed (plant_names : gmap hkey string)
    (earlier : list (string * value)) : Prop :=
  forall plant_data,
    plant_names !! name_key plant_data
    = fst <$> List.find (same_name plant_data) earlier.

(** The full audit. *)

(** What the specification expects of the audit of an empty bundle [b]. *)
Definition clean_run (b : bundle) : Prop :=
  issues (snd (main b)) = [] /\ warnings (snd (main b)) = []
  /\ is_healthy (snd (main b)) = true /\ exit_status (fst (main b)) = 0.

(** What the code does on it: the seven expected components are reported
    missing, and nothing else. *)
Definition run_with_missing_components (b : bundle) : Prop :=
  issues (snd (main b)) = []
  /\ warnings (snd (main b)) = map msg_missing_component expected_components
  /\ length (warnings (snd (main b))) = 7%nat
  /\ is_healthy (snd (main b)) = true
  /\ fst (main b) = Raise (SystemExit 0)
  /\ exit_status (fst (main b)) = 0.

(** The wick-watering rule finds nothing in [b]. *)
Definition no_wick_finding (b : bundle) : Prop :=
  issues (snd (check_wick_watering_consistency b new_auditor)) = []
  /\ warnings (snd (check_wick_watering_consistency b new_auditor)) = [].

(** The findings a command adds to a new auditor. *)
Definition findings_of (m : M unit) : list string :=
  issues (snd (m new_auditor)) ++ warnings (snd (m new_auditor)).

End Specification.

(** ** The bundles of the scenarios *)

(** A bundle with the given plants and water requirements and nothing else. *)
Definition bundle_of (plants_data water_requirements : list (string * value)) : bundle :=
  {| plants := VDict [("plants", VDict plants_data)];
     soil_mixes := VDict [];
     components := VDict [];
     fertilizers := VDict [];
     water_reqs := VDict [("water_requirements", VDict water_requirements)] |}.

(** Group [water_group_a] lists "Pothos", whose requirement says group B. *)
Definition pothos_requirements : list (string * value) :=
  [("pothos", VDict [("plant_name", VStr "Pothos"); ("group", VStr "B")])].

Definition pothos_groups : list (string * value) :=
  [("water_group_a", VDict [("plants", VList [VStr "Pothos"])])].

Definition pothos_bundle : bundle :=
  bundle_of []
    [("individual_requirements", VDict pothos_requirements);
     ("water_groups", VDict pothos_groups)].



(** Plant "aloe" refers to mix "99"; the mixes are numbered 1 and 2. *)
Definition aloe_plants : list (string * value) :=
  [("aloe", VDict [("soil", VDict [("mix_number", VStr "99")])])].

Definition aloe_mixes : list (string * value) :=
  [("mix_a", VDict [("number", VInt 1)]); ("mix_b", VDict [("number", VInt 2)])].

Definition aloe_bundle : bundle :=
  {| plants := VDict [("plants", VDict aloe_plants)];
     soil_mixes := VDict [("soil_mixes", VDict aloe_mixes)];
     components := VDict [];
     fertilizers := VDict [];
     water_reqs := VDict [] |}.

(** A plant whose [alternative_mix] is one space. *)
Definition blank_alternative_mix : bundle :=
  {| plants := VDict [("plants",
                VDict [("p", VDict [("soil", VDict [("alternative_mix", VStr " ")])])])];
     soil_mixes := VDict [];
     components := VDict [];
     fertilizers := VDict [];
     water_reqs := VDict [] |}.

(** One plant, with or without the key [recommended] in its
    [wick_watering], watered by [method]. *)
Definition wick_plant (recommended : option value) (method : string) : value :=
  VDict [("wick_watering",
          VDict match recommended with
                | Some flag => [("recommended", flag)]
                | None => []
                end);
         ("watering", VDict [("method", VStr method)])].

Definition wick_bundle (recommended : option value) (method : string) : bundle :=
  bundle_of [("p", wick_plant recommended method)] [].

(** A requirement whose two ranges are reversed and out of the usual
    bounds. *)
Definition reversed_ranges : list (string * value) :=
  [("ppm_range", VStr "700-600"); ("ph_range", VStr "9.5-9.0")].

(** Plants A and B; requirements for B and for an unknown Z. *)
Definition completeness_plants : list (string * value) :=
  [("A", VDict []); ("B", VDict [])].

Definition completeness_requirements : list (string * value) :=
  [("B", VDict []); ("Z", VDict [])].

Definition completeness_bundle : bundle :=
  bundle_of completeness_plants
    [("individual_requirements", VDict completeness_requirements)].

(** ** Invariants of the commands *)

(** A command only appends: what the auditor held and what was printed
    before it ran is still there afterwards, in the same order, whether
    the command returns or raises. *)
Definition grows {A} (m : M A) : Prop :=
  forall st,
    issues st `prefix_of` issues (snd (m st))
    /\ warnings st `prefix_of` warnings (snd (m st))
    /\ stdout st `prefix_of` stdout (snd (m st)).

(** A result, and a command, that is no [SystemExit]. *)
Definition no_exit {A} (r : res A) : Prop :=
  forall code, r <> Raise (SystemExit code).

Definition never_exits {A} (m : M A) : Prop :=
  forall st, no_exit (fst (m st)).

(** ** The report and the loading, as functions *)

(** [st] with more output. *)
Definition printed (st : auditor) (lines : list string) : auditor :=
  {| issues := issues st; warnings := warnings st; stdout := stdout st ++ lines |}.

(** A command that returns, having printed [lines] and nothing else. *)
Definition prints (m : M unit) (lines : list string) : Prop :=
  forall st, m st = (Ok tt, printed st lines).

(** A block of the report: its title, the messages indented by two spaces,
    an empty line; nothing when there is no message. *)
Definition report_block (title : string) (messages : list string) : list string :=
  if nonempty messages
  then title :: map (fun m => "  " +:+ m) messages ++ [""]
  else [].

(** What [print_report] prints when the auditor holds these findings. *)
Definition report_lines (found_issues found_warnings : list string) : list string :=
  [nl +:+ rule_line; "AUDIT REPORT"; rule_line +:+ nl]
  ++ if negb (nonempty found_issues) && negb (nonempty found_warnings)
     then ["[OK] NO ISSUES FOUND - Database is consistent!" +:+ nl]
     else report_block ("[!] CRITICAL ISSUES (" +:+ str_of_len found_issues +:+ "):" +:+ nl)
            found_issues
          ++ report_block ("[W]  WARNINGS (" +:+ str_of_len found_warnings +:+ "):" +:+ nl)
               found_warnings
          ++ [rule_line;
              "Summary: " +:+ str_of_len found_issues +:+ " issues, "
                +:+ str_of_len found_warnings +:+ " warnings";
              rule_line +:+ nl].

(** How [print_report] ends. *)
Definition report_outcome (found_issues found_warnings : list string) : res unit :=
  if nonempty found_issues then Raise (SystemExit 1)
  else if nonempty found_warnings then Raise (SystemExit 0)
  else Ok tt.

(** The document the constructor keeps for a file, and the Issue it records. *)
Definition document_of (file : loaded) : value :=
  match file with
  | Loaded document => document
  | Failed _ => VDict []
  end.

Definition load_issue (filename : string) (file : loaded) : list string :=
  match file with
  | Loaded _ => []
  | Failed error => [msg_cannot_load filename error]
  end.

Definition load_issues (base : files) : list string :=
  load_issue "plants.yaml" (plants_yaml base)
  ++ load_issue "soil-mixes.yaml" (soil_mixes_yaml base)
  ++ load_issue "components.yaml" (components_yaml base)
  ++ load_issue "fertilizers.yaml" (fertilizers_yaml base)
  ++ load_issue "water-requirements.yaml" (water_requirements_yaml base).

Definition bundle_of_files (base : files) : bundle :=
  {| plants := document_of (plants_yaml base);
     soil_mixes := document_of (soil_mixes_yaml base);
     components := document_of (components_yaml base);
     fertilizers := document_of (fertilizers_yaml base);
     water_reqs := document_of (water_requirements_yaml base) |}.

(** A base directory in which [fertilizers.yaml] cannot be read. *)
Definition missing_fertilizers : files :=
  {| plants_yaml := Loaded (VDict []);
     soil_mixes_yaml := Loaded (VDict []);
     components_yaml := Loaded (VDict []);
     fertilizers_yaml := Failed "[Errno 2] No such file or directory: 'fertilizers.yaml'";
     water_requirements_yaml := Loaded (VDict []) |}.

(** ** The Plant-to-SoilMix rule, as functions *)

Section SoilSpecification.
Context {R : PyRuntime}.

(** The number of a soil mix, as a string; the empty string when the mix has
    none. *)
Definition number_text (mix : string * value) : string :=
  match py_get (snd mix) "number" (VStr "") with
  | Ok number => py_str number
  | Raise _ => ""
  end.

Definition mix_numbers (mixes : list (string * value)) : gset string :=
  list_to_set (map number_text mixes).




End SoilSpecification.

(** Two plants, the first with an alternative mix of white space only. *)
Definition blank_then_aloe : list (string * value) :=
  [("p", VDict [("soil", VDict [("mix_number", VStr "7");
                                 ("alternative_mix", VStr " ")])]);
   ("aloe", VDict [("soil", VDict [("mix_number", VStr "99")])])].

Definition blank_then_aloe_bundle : bundle :=
  {| plants := VDict [("plants", VDict blank_then_aloe)];
     soil_mixes := VDict [("soil_mixes", VDict aloe_mixes)];
     components := VDict [];
     fertilizers := VDict [];
     water_reqs := VDict [] |}.



(** ** The soil-component rule, as functions *)

Section ComponentSpecification.
Context {R : PyRuntime}.

(** The name of a component, when it is a string that is not empty. *)
Definition component_name (comp_data : value) : option string :=
  match py_get comp_data "name" (VStr "") with
  | Ok (VStr comp_name) => if String.eqb comp_name "" then None else Some comp_name
  | _ => None
  end.

Definition component_names (items : list (string * value)) : list string :=
  omap (fun kv => component_name (snd kv)) items.

(** The component is a mapping whose name is a string or is falsy. *)
Definition component_ready (comp_data : value) : bool :=
  match py_get comp_data "name" (VStr "") with
  | Ok (VStr _) => true
  | Ok comp_name => negb (truthy comp_name)
  | Raise _ => false
  end.

(** Some name contains the expected component, letter case apart. *)
Definition component_found (comp : string) (names : list string) : bool :=
  existsb (fun vc => str_contains (str_lower comp) (str_lower vc)) names.

Definition spec_component_warning (names : list string) (comp : string) : list string :=
  if component_found comp names then [] else [msg_missing_component comp].

End ComponentSpecification.

(** Two components: one name covers two expected components, the other
    differs from the expected one in letter case only. *)
Definition sample_components : value :=
  VDict [("soil_components",
          VDict [("basic_substrates",
                  VDict [("coco_perlite", VDict [("name", VStr "Кокос-перлит (50/50)")]);
                         ("unnamed", VDict [("ph", VStr "6.0")])]);
                 ("additional_components",
                  VDict [("charcoal", VDict [("name", VStr "ДРЕВЕСНЫЙ УГОЛЬ")])])])].

Definition sample_components_bundle : bundle :=
  mkBundle (VDict []) (VDict []) sample_components (VDict []) (VDict []).

(** ** The names of the plants, as a set *)

Section NameSpecification.
Context {R : PyRuntime}.

(** The keys under which the plants [items] are filed. *)
Definition name_keys (items : list (string * value)) : list hkey :=
  map (fun kv => name_key (snd kv)) items.

End NameSpecification.

(** Two plants without a name, and two whose names are equal as Python
    values though they are written differently. *)
Definition unnamed_plants : list (string * value) :=
  [("a", VDict []);
   ("b", VDict [("name", VStr "")]);
   ("c", VDict [("name", VInt 1)]);
   ("d", VDict [("name", VBool true)])].

Definition unnamed_bundle : bundle := bundle_of unnamed_plants [].

(** A plant whose watering method is a number, with the flag set and with
    the flag null. *)
Definition numeric_method (recommended : value) : value :=
  VDict [("wick_watering", VDict [("recommended", recommended)]);
         ("watering", VDict [("method", VInt 3)])].

(** ** The whole audit, as functions *)

Section AuditSpecification.
Context {R : PyRuntime}.






End AuditSpecification.





(** A plant named "Rose" twice, then a plant whose name is a list, then a
    third "Rose". *)
Definition list_named_plants : list (string * value) :=
  [("A", VDict [("name", VStr "Rose")]);
   ("B", VDict [("name", VStr "Rose")]);
   ("C", VDict [("name", VList [VStr "Fern"; VStr "Moss"])]);
   ("D", VDict [("name", VStr "Rose")])].

Definition list_named_bundle : bundle := bundle_of list_named_plants [].


(** ** Reasoning about the monad *)

(** [st] with more issues, warnings and output. *)
Definition extend (st : auditor) (i w o : list string) : auditor :=
  {| issues := issues st ++ i; warnings := warnings st ++ w; stdout := stdout st ++ o |}.

(** [m] returns [a], having appended the issues [i] and the warnings [w]. *)
Definition yields {A} (m : M A) (a : A) (i w : list string) : Prop :=
  forall st, exists o, m st = (Ok a, extend st i w o).

(** [m] raises [e], having appended the issues [i] and the warnings [w]. *)
Definition fails {A} (m : M A) (e : exn) (i w : list string) : Prop :=
  forall st, exists o, m st = (Raise e, extend st i w o).

Lemma extend_nil st : extend st [] [] [] = st.
Proof. destruct st; unfold extend; simpl; by rewrite !app_nil_r. Qed.

Lemma extend_extend st i1 w1 o1 i2 w2 o2 :
  extend (extend st i1 w1 o1) i2 w2 o2 = extend st (i1 ++ i2) (w1 ++ w2) (o1 ++ o2).
Proof. unfold extend; simpl; by rewrite !app_assoc. Qed.

Lemma yields_ret {A} (a : A) : yields (mret a) a [] [].
Proof. intros st; exists []; by rewrite extend_nil. Qed.

Lemma yields_lift {A} (r : res A) (a : A) : r = Ok a -> yields (lift r) a [] [].
Proof. intros -> st; exists []; by rewrite extend_nil. Qed.

Lemma yields_bind {A B} (m : M A) (k : A -> M B) a b i1 w1 i2 w2 :
  yields m a i1 w1 -> yields (k a) b i2 w2 ->
  yields (m ≫= k) b (i1 ++ i2) (w1 ++ w2).
Proof.
  intros Hm Hk st. destruct (Hm st) as [o1 E1].
  destruct (Hk (extend st i1 w1 o1)) as [o2 E2].
  exists (o1 ++ o2). unfold mbind, M_bind. by rewrite E1, E2, extend_extend.
Qed.

Lemma yields_print line : yields (print line) tt [] [].
Proof. intros st; exists [line]; unfold print, extend; simpl; by rewrite !app_nil_r. Qed.

Lemma yields_issue msg : yields (append_issue msg) tt [msg] [].
Proof. intros st; exists []; unfold append_issue, extend; simpl; by rewrite !app_nil_r. Qed.

Lemma yields_warning msg : yields (append_warning msg) tt [] [msg].
Proof. intros st; exists []; unfold append_warning, extend; simpl; by rewrite !app_nil_r. Qed.

Lemma yields_when_issue (c : bool) msg :
  yields (when c (append_issue msg)) tt (if c then [msg] else []) [].
Proof. destruct c; [apply yields_issue|apply yields_ret]. Qed.

Lemma yields_when_warning (c : bool) msg :
  yields (when c (append_warning msg)) tt [] (if c then [msg] else []).
Proof. destruct c; [apply yields_warning|apply yields_ret]. Qed.

Lemma yields_eq {A} (m : M A) a i w i' w' :
  yields m a i w -> i = i' -> w = w' -> yields m a i' w'.
Proof. by intros H <- <-. Qed.

Lemma yields_for_each {A} (body : A -> M unit) (fi fw : A -> list string) (l : list A) :
  (forall x, x ∈ l -> yields (body x) tt (fi x) (fw x)) ->
  yields (for_each l body) tt (concat (map fi l)) (concat (map fw l)).
Proof.
  induction l as [|x l IH]; intros H; simpl.
  - apply yields_ret.
  - eapply yields_bind.
    + apply H. by left.
    + apply IH. intros y Hy. apply H. by right.
Qed.

(** What a run that returned did to the two lists. *)
Lemma yields_run {A} (m : M A) a i w st :
  yields m a i w ->
  exists st', m st = (Ok a, st') /\ issues st' = issues st ++ i
              /\ warnings st' = warnings st ++ w.
Proof. intros H. destruct (H st) as [o E]. by exists (extend st i w o). Qed.

Lemma bind_yields {A B} (m : M A) (k : A -> M B) a i w st :
  yields m a i w -> exists o, (m ≫= k) st = k a (extend st i w o).
Proof.
  intros H. destruct (H st) as [o E]. exists o. unfold mbind, M_bind. by rewrite E.
Qed.

Lemma yields_print_all (lines : list string) (f : string -> string) :
  yields (for_each lines (fun line => print (f line))) tt [] [].
Proof.
  induction lines as [|x l IH]; simpl.
  - apply yields_ret.
  - change (@nil string) with (@nil string ++ []). eapply yields_bind; [apply yields_print | apply IH].
Qed.

Lemma bind_run {A B} (m : M A) (k : A -> M B) st :
  (m ≫= k) st =
  match m st with
  | (Ok a, st') => k a st'
  | (Raise e, st') => (Raise e, st')
  end.
Proof. reflexivity. Qed.

Arguments rule_line : simpl never.

Lemma script_loaded {R : PyRuntime} (b : bundle) : script (files_of b) = main b.
Proof. by destruct b. Qed.

Lemma extend_issues st i w o : issues (extend st i w o) = issues st ++ i.
Proof. reflexivity. Qed.

Lemma extend_warnings st i w o : warnings (extend st i w o) = warnings st ++ w.
Proof. reflexivity. Qed.

(** Run the first command of a sequence, given what it yields. *)
Ltac run_by tac :=
  match goal with
  | |- context [ (?m ≫= ?k) ?st ] =>
      let o := fresh "o" in
      let E := fresh "E" in
      let H := fresh "H" in
      assert (H : yields m tt [] []) by tac;
      destruct (bind_yields m k tt [] [] st H) as [o E];
      rewrite E; clear E H; cbv beta
  end.

Lemma yields_quiet_bind {A} (m : M unit) (k : unit -> M A) a :
  yields m tt [] [] -> yields (k tt) a [] [] -> yields (m ≫= k) a [] [].
Proof. intros Hm Hk. change (@nil string) with (@nil string ++ []). by eapply yields_bind. Qed.

(** A block of the report: a title, one line per message, an empty line. *)
Lemma yields_report_block (c : bool) (title : string) (lines : list string) :
  yields (when c (print title ;; for_each lines (fun line => print ("  " +:+ line)) ;; print ""))
         tt [] [].
Proof.
  destruct c; [|apply yields_ret]. simpl.
  apply yields_quiet_bind; [apply yields_print|].
  apply yields_quiet_bind; [apply yields_print_all|apply yields_print].
Qed.

Section Properties.
Context {R : PyRuntime}.

(** *** print_report *)

Lemma print_report_outcome st :
  exists st',
    print_report st =
      (if nonempty (issues st) || nonempty (warnings st)
       then Raise (SystemExit (if nonempty (issues st) then 1 else 0))
       else Ok tt, st')
    /\ issues st' = issues st /\ warnings st' = warnings st.
Proof.
  unfold print_report.
  do 3 run_by ltac:(apply yields_print).
  rewrite bind_run. unfold get_issues at 1. cbv iota beta.
  rewrite bind_run. unfold get_warnings at 1. cbv iota beta.
  rewrite !extend_issues, !extend_warnings, !app_nil_r, !extend_extend.
  destruct (nonempty (issues st)) eqn:Ei; cbn [negb andb orb].
  - do 2 run_by ltac:(apply yields_report_block).
    do 3 run_by ltac:(apply yields_print).
    eexists; split; [reflexivity|]. rewrite !extend_extend. simpl. by rewrite !app_nil_r.
  - destruct (nonempty (warnings st)) eqn:Ew; cbn [negb andb orb].
    + do 2 run_by ltac:(apply yields_report_block).
      do 3 run_by ltac:(apply yields_print).
      eexists; split; [reflexivity|]. rewrite !extend_extend. simpl. by rewrite !app_nil_r.
    + eexists; split; [reflexivity|]. simpl. by rewrite !app_nil_r.
Qed.

(** *** The full audit *)

(** C1 (as amended). The full audit of a bundle whose five collections are
    empty produces no Issue and exactly seven Warnings, one for each
    component name the soil-component rule expects; the report is healthy
    and the exit status is 0. *)
Theorem empty_bundle_audit :
  run_with_missing_components empty_bundle
  /\ run_with_missing_components empty_collections.
Proof. split; repeat split; vm_compute; reflexivity. Qed.

(** The exit status on the runs in which the rules of the catalog all
    returned: it is 1 exactly when an Issue was produced and 0 otherwise,
    whatever the Warnings; the report is healthy exactly when there is no
    Issue. What happens to C8 when a rule raises is shown among the
    scenarios. *)
Theorem audit_exit_status (b : bundle) (st0 st1 : auditor) :
  run_rules b (snd (print banner st0)) = (Ok tt, st1) ->
  exists outcome final,
    audit_all b st0 = (outcome, final)
    /\ issues final = issues st1 /\ warnings final = warnings st1
    /\ (exit_status outcome = 1 <-> issues final <> [])
    /\ (exit_status outcome = 0 <-> issues final = [])
    /\ (is_healthy final = true <-> issues final = []).
Proof.
  intros Hrules. unfold audit_all.
  rewrite bind_run. change (print banner st0) with (Ok tt, snd (print banner st0)).
  cbv iota beta. rewrite bind_run, Hrules.
  destruct (print_report_outcome st1) as (final & E & Hi & Hw).
  exists (fst (print_report st1)), final. rewrite E. simpl fst.
  split; [reflexivity|]. split; [done|]. split; [done|].
  unfold is_healthy. rewrite Hi.
  destruct (issues st1) as [|x l]; simpl.
  - destruct (nonempty (warnings st1)); simpl; intuition congruence.
  - intuition congruence.
Qed.

(** *** check_plant_water_references *)

Lemma concat_singletons {A B} (f : A -> B) (l : list A) :
  concat (map (fun x => [f x]) l) = map f l.
Proof. induction l as [|x l IH]; simpl; by rewrite ?IH. Qed.

Lemma concat_nils {A B} (l : list A) : concat (map (fun _ => @nil B) l) = [].
Proof. by induction l. Qed.

(** [if ids: for x in ids: ...] over a set is the loop alone. *)
Lemma yields_when_elements (ids : gset string) (body : string -> M unit) i w :
  yields (for_each (elements ids) body) tt i w ->
  yields (when (negb (bool_decide (ids = ∅))) (for_each (elements ids) body)) tt i w.
Proof.
  intros H. case_bool_decide as E; simpl; [|done].
  subst ids. by rewrite elements_empty in H.
Qed.

Lemma individual_of_inv (b : bundle) (v : value) :
  individual_of b = Ok v ->
  exists wr, py_get (water_reqs b) "water_requirements" (VDict []) = Ok wr
             /\ py_get wr "individual_requirements" (VDict []) = Ok v.
Proof.
  unfold individual_of. destruct (py_get (water_reqs b) _ _) as [wr|e] eqn:E; [|done].
  intros H. by exists wr.
Qed.

Lemma check_plant_water_yields (b : bundle) (P W : list (string * value)) :
  plants_of b = Ok (VDict P) -> individual_of b = Ok (VDict W) ->
  yields (check_plant_water_references b) tt
    (map msg_missing_water (elements (key_set (map fst P) ∖ key_set (map fst W))))
    (map msg_unknown_plant (elements (key_set (map fst W) ∖ key_set (map fst P)))).
Proof.
  intros HP HW. apply individual_of_inv in HW as (wr & Hwr & HW).
  unfold check_plant_water_references.
  eapply yields_eq.
  - eapply yields_bind; [apply yields_print|].
    eapply yields_bind; [apply yields_lift, HP|].
    eapply yields_bind; [apply yields_lift, Hwr|].
    eapply yields_bind; [apply yields_lift, HW|].
    eapply yields_bind; [by apply yields_lift|].
    eapply yields_bind; [by apply yields_lift|].
    cbv zeta.
    eapply yields_bind.
    { apply yields_when_elements.
      apply (yields_for_each _ (fun x => [msg_missing_water x]) (fun _ => [])). intros x _.
      apply yields_issue. }
    eapply yields_bind.
    { apply yields_when_elements.
      apply (yields_for_each _ (fun _ => []) (fun x => [msg_unknown_plant x])). intros x _.
      apply yields_warning. }
    apply yields_print.
  - simpl. by rewrite concat_singletons, concat_nils, !app_nil_r.
  - simpl. by rewrite concat_singletons, concat_nils, !app_nil_r.
Qed.

(** C5. The completeness rule adds one Issue for each key of the plants
    that is no key of the individual requirements, one Warning for each key
    of the requirements that is no key of the plants, and nothing else: the
    flagged ids are the symmetric difference of the two key sets, each
    flagged once, and equal key sets give no finding. The order of the
    findings within the rule is the iteration order of a Python set, which
    is not specified. *)
Theorem plant_water_completeness (b : bundle) (P W : list (string * value))
    (st : auditor) :
  plants_of b = Ok (VDict P) -> individual_of b = Ok (VDict W) ->
  exists st' missing extra,
    check_plant_water_references b st = (Ok tt, st')
    /\ issues st' = issues st ++ map msg_missing_water missing
    /\ warnings st' = warnings st ++ map msg_unknown_plant extra
    /\ NoDup missing /\ NoDup extra
    /\ (forall k, k ∈ missing <-> k ∈ map fst P /\ k ∉ map fst W)
    /\ (forall k, k ∈ extra <-> k ∈ map fst W /\ k ∉ map fst P)
    /\ ((forall k, k ∈ map fst P <-> k ∈ map fst W) -> missing = [] /\ extra = []).
Proof.
  intros HP HW.
  destruct (yields_run _ _ _ _ st (check_plant_water_yields b P W HP HW))
    as (st' & E & Hi & Hw).
  exists st', (elements (key_set (map fst P) ∖ key_set (map fst W))),
    (elements (key_set (map fst W) ∖ key_set (map fst P))).
  split; [exact E|]. split; [exact Hi|]. split; [exact Hw|].
  split; [apply NoDup_elements|]. split; [apply NoDup_elements|].
  unfold key_set.
  split; [|split].
  - intros k. rewrite elem_of_elements, elem_of_difference, !elem_of_list_to_set. done.
  - intros k. rewrite elem_of_elements, elem_of_difference, !elem_of_list_to_set. done.
  - intros Heq.
    assert (Hset : (list_to_set (map fst P) : gset string) = list_to_set (map fst W)).
    { apply set_eq. intros k. rewrite !elem_of_list_to_set. apply Heq. }
    rewrite Hset, difference_diag_L, elements_empty. done.
Qed.

(** *** check_plant_soil_references *)

Lemma truthy_str (s : string) : truthy (VStr s) = bool_decide (s ≠ "").
Proof.
  simpl. destruct (String.eqb_spec s ""); simpl; symmetry.
  - apply bool_decide_eq_false. by intros H.
  - by apply bool_decide_eq_true.
Qed.

Lemma bind_lift {A B} (r : res A) (k : A -> M B) st :
  (lift r ≫= k) st = match r with Ok a => k a st | Raise e => (Raise e, st) end.
Proof. by destruct r. Qed.

(** The issues a plant adds, whether or not the step returns. *)
Lemma plant_soil_step_issues valid plant_id plant_data st :
  issues (snd (plant_soil_step valid plant_id plant_data st))
  = issues st ++ spec_mix_issue valid plant_id plant_data.
Proof.
  unfold plant_soil_step, spec_mix_issue, mix_number_of.
  rewrite bind_lift.
  destruct (py_get plant_data "soil" (VDict [])) as [soil|e]; simpl;
    [|by rewrite app_nil_r].
  rewrite bind_lift.
  destruct (py_get soil "mix_number" (VStr "")) as [mix|e]; simpl;
    [|by rewrite app_nil_r].
  rewrite bool_decide_and, <- truthy_str, bool_decide_not.
  change (negb (py_str mix =? "")%string) with (truthy (VStr (py_str mix))).
  set (flagged := truthy (VStr (py_str mix)) && negb (bool_decide (py_str mix ∈ valid))).
  rewrite bind_run.
  assert (Hwhen : exists st1,
    when flagged (append_issue (msg_bad_mix plant_id (py_str mix))) st = (Ok tt, st1)
    /\ issues st1 = issues st ++ (if flagged then [msg_bad_mix plant_id (py_str mix)] else [])
    /\ warnings st1 = warnings st).
  { destruct flagged; simpl; eexists; (split; [reflexivity|]); simpl; by rewrite ?app_nil_r. }
  destruct Hwhen as (st1 & -> & Hi & _). rewrite <- Hi. clear Hi.
  rewrite bind_lift.
  destruct (py_get soil "alternative_mix" (VStr "")) as [alt|e]; [|done].
  unfold when. destruct (truthy alt); [|done].
  rewrite bind_lift. destruct (first_token alt) as [tok|e]; [|done].
  by destruct (negb (tok =? "")%string && negb (bool_decide (tok ∈ valid))).
Qed.

Lemma for_each_issues {A} (body : A -> M unit) (f : A -> list string) (l : list A) :
  (forall x st, issues (snd (body x st)) = issues st ++ f x) ->
  forall st st', for_each l body st = (Ok tt, st') ->
                 issues st' = issues st ++ concat (map f l).
Proof.
  intros Hbody. induction l as [|x l IH]; intros st st'; simpl.
  - intros [= <-]. by rewrite app_nil_r.
  - rewrite bind_run. destruct (body x st) as [[[]|e] st1] eqn:E; [|done].
    intros H. apply IH in H. rewrite H.
    specialize (Hbody x st). rewrite E in Hbody. simpl in Hbody.
    by rewrite Hbody, app_assoc.
Qed.

(** The set built by lines 57-60 holds the numbers of the mixes. *)
Lemma valid_mix_numbers_spec (items : list (string * value)) (acc valid : gset string) :
  valid_mix_numbers acc items = Ok valid ->
  forall k, k ∈ valid <->
    k ∈ acc \/ exists mix_id mix_data number,
                 (mix_id, mix_data) ∈ items
                 /\ py_get mix_data "number" (VStr "") = Ok number
                 /\ py_str number = k.
Proof.
  revert acc. induction items as [|[mix_id mix_data] r IH]; intros acc; simpl.
  - intros [= <-] k. split; [by left|]. intros [H|(? & ? & ? & H & _)]; [done|].
    by apply elem_of_nil in H.
  - destruct (py_get mix_data "number" (VStr "")) as [number|e] eqn:E; simpl; [|done].
    intros H k. rewrite (IH _ H k), elem_of_union, elem_of_singleton.
    split.
    + intros [[Hk| ->]|(i & d & n & Hin & Hn & Hk)].
      * by left.
      * right. exists mix_id, mix_data, number. split; [left|done].
      * right. exists i, d, n. split; [by right|done].
    + intros [Hk|(i & d & n & Hin & Hn & Hk)]; [by left; left|].
      apply elem_of_cons in Hin as [[= -> ->]|Hin].
      * left; right. rewrite E in Hn. by injection Hn as ->.
      * right. by exists i, d, n.
Qed.

(** The membership check of the Plant-to-SoilMix rule, on the runs of the
    rule that return: the Issues it added are those of the plants, in their
    order; a plant whose mix number (as a string) is not empty and is not
    the number of any soil mix adds exactly one Issue, which names the plant
    and the number; a plant whose mix number is absent or empty adds none.
    What happens to C6 on a run that raises is shown among the scenarios. *)
Theorem plant_soil_membership (b : bundle) (P Mx : list (string * value))
    (st st' : auditor) :
  plants_of b = Ok (VDict P) -> soil_mixes_of b = Ok (VDict Mx) ->
  check_plant_soil_references b st = (Ok tt, st') ->
  exists valid : gset string,
    (forall k, k ∈ valid <->
       exists mix_id mix_data number,
         (mix_id, mix_data) ∈ Mx
         /\ py_get mix_data "number" (VStr "") = Ok number /\ py_str number = k)
    /\ issues st' = issues st
                     ++ concat (map (fun kv => spec_mix_issue valid (fst kv) (snd kv)) P)
    /\ (forall plant_id plant_data mix_number,
          (plant_id, plant_data) ∈ P ->
          mix_number_of plant_data = Ok mix_number ->
          mix_number ≠ "" -> mix_number ∉ valid ->
          spec_mix_issue valid plant_id plant_data = [msg_bad_mix plant_id mix_number])
    /\ (forall plant_id plant_data soil,
          (plant_id, plant_data) ∈ P ->
          py_get plant_data "soil" (VDict []) = Ok (VDict soil) ->
          assoc_get "mix_number" soil = None \/ assoc_get "mix_number" soil = Some (VStr "") ->
          spec_mix_issue valid plant_id plant_data = []).
Proof.
  intros HP HM Hrun. unfold check_plant_soil_references in Hrun.
  revert Hrun. run_by ltac:(apply yields_print).
  unfold plants_of in HP. unfold soil_mixes_of in HM.
  rewrite bind_lift, HP, bind_lift, HM, bind_lift. simpl py_items. cbv iota.
  rewrite bind_lift.
  destruct (valid_mix_numbers ∅ Mx) as [valid|e] eqn:Ev; [|done].
  rewrite bind_lift. simpl py_items. cbv iota. rewrite bind_run.
  destruct (for_each P _ _) as [[[]|e] st1] eqn:Eloop; [|done].
  intros Hprint. exists valid. split; [|split; [|split]].
  - intros k. rewrite (valid_mix_numbers_spec _ _ _ Ev k).
    split; [intros [H|H]; [by apply elem_of_empty in H|done]|by right].
  - injection Hprint as <-. simpl.
    apply (for_each_issues _ (fun kv => spec_mix_issue valid (fst kv) (snd kv))) in Eloop.
    + rewrite Eloop, extend_issues. by rewrite app_nil_r.
    + intros x st2. apply plant_soil_step_issues.
  - intros plant_id plant_data mix_number _ Hmix Hne Hnot.
    unfold spec_mix_issue. rewrite Hmix. by rewrite bool_decide_true.
  - intros plant_id plant_data soil _ Hsoil Hmix.
    unfold spec_mix_issue, mix_number_of. rewrite Hsoil. simpl.
    by destruct Hmix as [-> | ->].
Qed.

(** *** check_water_group_consistency *)

Lemma py_get_dict (v : value) (k : string) (default : value) :
  is_dict v = true -> exists x, py_get v k default = Ok x.
Proof. destruct v; try done. intros _. by eexists. Qed.

Lemma find_requirement_yields group_id plant_name items :
  Forall (fun kv => is_dict (snd kv) = true) items ->
  yields (find_requirement group_id plant_name items)
    (bool_decide (is_Some (first_requirement plant_name items)))
    (fst (spec_group_member items group_id plant_name)) [].
Proof.
  unfold spec_group_member, first_requirement.
  induction 1 as [|[plant_id plant_data] r Hd _ IH]; simpl.
  - apply yields_ret.
  - simpl in Hd. unfold bears_name at 1 3 5. simpl snd.
    destruct (py_get_dict plant_data "plant_name" (VStr "") Hd) as [entry_name En].
    destruct (py_get_dict plant_data "group" (VStr "") Hd) as [assigned Ea].
    rewrite En. unfold assigned_group_of.
    destruct (py_eq entry_name plant_name) eqn:Eq.
    + eapply yields_eq.
      * eapply yields_bind; [by apply yields_lift|]. rewrite Eq.
        eapply yields_bind; [by apply yields_lift|].
        cbv zeta.
        eapply yields_bind; [apply yields_when_issue|apply yields_ret].
      * simpl. rewrite !app_nil_r, ?Ea.
        by destruct (py_eq _ (VStr (expected_group_of group_id))).
      * done.
    + eapply yields_eq.
      * eapply yields_bind; [by apply yields_lift|]. rewrite Eq. apply IH.
      * done.
      * done.
Qed.

Lemma group_member_step_yields group_id plant_name items :
  Forall (fun kv => is_dict (snd kv) = true) items ->
  yields (group_member_step (VDict items) group_id plant_name) tt
    (fst (spec_group_member items group_id plant_name))
    (snd (spec_group_member items group_id plant_name)).
Proof.
  intros Hd. unfold group_member_step.
  eapply yields_eq.
  - eapply yields_bind; [by apply yields_lift|].
    eapply yields_bind; [by apply find_requirement_yields|].
    apply yields_when_warning.
  - simpl. by rewrite app_nil_r.
  - simpl. unfold spec_group_member.
    destruct (first_requirement plant_name items) as [[i d]|]; simpl.
    + by destruct (py_eq _ _).
    + done.
Qed.

Lemma group_names_inv group_data names :
  group_names group_data = Ok names ->
  exists group_plants, py_get group_data "plants" (VList []) = Ok group_plants
                       /\ py_iter group_plants = Ok names.
Proof.
  unfold group_names. destruct (py_get group_data _ _) as [g|e]; [|done].
  intros H. by exists g.
Qed.

Lemma water_groups_of_inv (b : bundle) (v w : value) :
  individual_of b = Ok v -> water_groups_of b = Ok w ->
  exists wr, py_get (water_reqs b) "water_requirements" (VDict []) = Ok wr
             /\ py_get wr "individual_requirements" (VDict []) = Ok v
             /\ py_get wr "water_groups" (VDict []) = Ok w.
Proof.
  unfold individual_of, water_groups_of.
  destruct (py_get (water_reqs b) _ _) as [wr|e]; [|done].
  intros H1 H2. by exists wr.
Qed.

Lemma concat_flat_map {A B C} (f : A -> list B) (g : B -> list C) (l : list A) :
  concat (map g (flat_map f l)) = concat (map (fun x => concat (map g (f x))) l).
Proof.
  induction l as [|x l IH]; simpl; [done|].
  by rewrite map_app, concat_app, IH.
Qed.

Lemma check_water_group_yields (b : bundle) (items groups : list (string * value)) :
  individual_of b = Ok (VDict items) ->
  water_groups_of b = Ok (VDict groups) ->
  Forall (fun kv => is_dict (snd kv) = true) items ->
  (forall g, g ∈ groups -> exists names, group_names (snd g) = Ok names) ->
  yields (check_water_group_consistency b) tt
    (fst (spec_water_groups items groups)) (snd (spec_water_groups items groups)).
Proof.
  intros Hi Hg Hd Hn.
  destruct (water_groups_of_inv b _ _ Hi Hg) as (wr & Hwr & Hi' & Hg').
  unfold check_water_group_consistency, spec_water_groups. cbv zeta. simpl fst. simpl snd.
  rewrite !concat_flat_map.
  eapply yields_eq.
  - eapply yields_bind; [apply yields_print|].
    eapply yields_bind; [apply yields_lift, Hwr|].
    eapply yields_bind; [apply yields_lift, Hi'|].
    eapply yields_bind; [apply yields_lift, Hg'|].
    eapply yields_bind; [by apply yields_lift|].
    eapply yields_bind; [|apply yields_print].
    apply (yields_for_each _
             (fun g => concat (map fst (map (spec_group_member items (fst g)) (listed (snd g)))))
             (fun g => concat (map snd (map (spec_group_member items (fst g)) (listed (snd g)))))).
    intros [group_id group_data] Hin. simpl fst. simpl snd.
    destruct (Hn _ Hin) as [names Hnames]. simpl in Hnames.
    unfold listed. rewrite Hnames.
    apply group_names_inv in Hnames as (group_plants & Hp & Hiter).
    unfold water_group_step.
    eapply yields_eq.
    + eapply yields_bind; [apply yields_lift, Hp|].
      eapply yields_bind; [apply yields_lift, Hiter|].
      apply (yields_for_each _
               (fun n => fst (spec_group_member items group_id n))
               (fun n => snd (spec_group_member items group_id n))).
      intros n _. by apply group_member_step_yields.
    + simpl. by rewrite map_map.
    + simpl. by rewrite map_map.
  - simpl. by rewrite app_nil_r.
  - simpl. by rewrite app_nil_r.
Qed.

Lemma find_first {A} (f : A -> bool) (l : list A) (x : A) :
  List.find f l = Some x <->
  exists l1 l2, l = l1 ++ x :: l2 /\ f x = true /\ Forall (fun y => f y = false) l1.
Proof.
  induction l as [|y l IH]; simpl.
  - split; [done|]. intros (l1 & l2 & E & _). by destruct l1.
  - destruct (f y) eqn:Ey.
    + split.
      * intros [= ->]. by exists [], l.
      * intros (l1 & l2 & E & Hx & Hl1). destruct l1 as [|z l1]; simpl in E.
        -- by injection E as ->.
        -- injection E as -> _. apply Forall_cons in Hl1 as [Hz _]. congruence.
    + rewrite IH. split.
      * intros (l1 & l2 & -> & Hx & Hl1). exists (y :: l1), l2. split; [done|].
        split; [done|]. by constructor.
      * intros (l1 & l2 & E & Hx & Hl1). destruct l1 as [|z l1]; simpl in E.
        -- injection E as -> _. congruence.
        -- injection E as -> ->. apply Forall_cons in Hl1 as [_ Hl1]. by exists l1, l2.
Qed.

Lemma find_none {A} (f : A -> bool) (l : list A) :
  List.find f l = None <-> Forall (fun y => f y = false) l.
Proof.
  induction l as [|y l IH]; simpl; [done|].
  destruct (f y) eqn:Ey.
  - split; [done|]. intros H. apply Forall_cons in H as [H _]. congruence.
  - rewrite IH. split; [by constructor|]. intros H. by apply Forall_cons in H as [_ H].
Qed.

(** The part of a group id after its last underscore. *)
Lemma split_on_length sep s : (1 <= length (split_on sep s))%nat.
Proof.
  induction s as [|c t IH]; simpl; [lia|].
  destruct (Ascii.eqb c sep); simpl; [lia|].
  destruct (split_on sep t); simpl in *; lia.
Qed.

Lemma last_item_cons x l : (1 <= length l)%nat -> last_item (x :: l) = last_item l.
Proof. destruct l; simpl; [lia|done]. Qed.

Lemma split_on_after sep p s :
  last_item (split_on sep (p +:+ String sep s)) = last_item (split_on sep s)
  /\ (2 <= length (split_on sep (p +:+ String sep s)))%nat.
Proof.
  induction p as [|c p [IH1 IH2]]; simpl.
  - rewrite Ascii.eqb_refl. pose proof (split_on_length sep s). split.
    + by apply last_item_cons.
    + simpl. lia.
  - destruct (Ascii.eqb c sep).
    + split; [|simpl; lia]. rewrite last_item_cons; [done|lia].
    + destruct (split_on sep (p +:+ String sep s)) as [|h [|h' r]]; simpl in *; try lia.
      split; [done|lia].
Qed.

Lemma split_on_absent sep s :
  str_contains (String sep "") s = false -> split_on sep s = [s].
Proof.
  induction s as [|c t IH]; simpl; [done|].
  destruct (ascii_dec sep c) as [->|Hne].
  - by destruct t.
  - intros H. destruct (Ascii.eqb_spec c sep) as [->|_]; [done|].
    rewrite IH; [done|]. destruct t; simpl in *; [done|]. exact H.
Qed.

Lemma expected_group_suffix (prefix suffix : string) :
  str_contains "_" suffix = false ->
  expected_group_of (prefix +:+ "_" +:+ suffix) = str_upper suffix.
Proof.
  intros H. unfold expected_group_of.
  change ("_" +:+ suffix) with (String "_" suffix).
  rewrite (proj1 (split_on_after "_" prefix suffix)).
  by rewrite split_on_absent.
Qed.

(** C7. For each group and each name it lists, the water-group rule looks
    for the first requirement whose [plant_name] is that name; when there is
    one and its [group] differs from the part of the group id after the last
    underscore, upper-cased, it adds exactly one Issue; when there is none it
    adds exactly one Warning; otherwise it adds nothing. In the Pothos
    scenario the rule adds exactly one Issue. *)
Theorem water_group_findings (b : bundle) (items groups : list (string * value))
    (st : auditor) :
  individual_of b = Ok (VDict items) ->
  water_groups_of b = Ok (VDict groups) ->
  Forall (fun kv => is_dict (snd kv) = true) items ->
  (forall g, g ∈ groups -> exists names, group_names (snd g) = Ok names) ->
  (exists st',
      check_water_group_consistency b st = (Ok tt, st')
      /\ issues st' = issues st ++ fst (spec_water_groups items groups)
      /\ warnings st' = warnings st ++ snd (spec_water_groups items groups))
  /\ (forall group_id plant_name before plant_id plant_data after,
        items = before ++ (plant_id, plant_data) :: after ->
        Forall (fun entry => bears_name plant_name entry = false) before ->
        bears_name plant_name (plant_id, plant_data) = true ->
        spec_group_member items group_id plant_name =
          if py_eq (assigned_group_of plant_data) (VStr (expected_group_of group_id))
          then ([], [])
          else ([msg_wrong_group (py_str plant_name) group_id
                   (py_str (assigned_group_of plant_data))], []))
  /\ (forall group_id plant_name,
        Forall (fun entry => bears_name plant_name entry = false) items ->
        spec_group_member items group_id plant_name =
          ([], [msg_orphan_member (py_str plant_name) group_id]))
  /\ (forall prefix suffix,
        str_contains "_" suffix = false ->
        expected_group_of (prefix +:+ "_" +:+ suffix) = str_upper suffix)
  /\ (let '(outcome, st') :=
         check_water_group_consistency (R := ref_runtime) pothos_bundle new_auditor in
       outcome = Ok tt
       /\ issues st' = [msg_wrong_group "Pothos" "water_group_a" "B"]
       /\ warnings st' = []).
Proof.
  intros Hi Hg Hd Hn. split; [|split; [|split; [|split]]].
  - destruct (yields_run _ _ _ _ st (check_water_group_yields b items groups Hi Hg Hd Hn))
      as (st' & E & H1 & H2).
    by exists st'.
  - intros group_id plant_name before plant_id plant_data after E Hb Hx.
    unfold spec_group_member, first_requirement.
    assert (Hf : List.find (bears_name plant_name) items = Some (plant_id, plant_data)).
    { apply find_first. by exists before, after. }
    by rewrite Hf.
  - intros group_id plant_name Hnone. unfold spec_group_member, first_requirement.
    apply find_none in Hnone. by rewrite Hnone.
  - apply expected_group_suffix.
  - vm_compute. done.
Qed.

(** *** check_duplicates_and_conflicts *)

Lemma find_snoc {A} (f : A -> bool) (l : list A) (x : A) :
  List.find f (l ++ [x]) =
  match List.find f l with
  | Some y => Some y
  | None => if f x then Some x else None
  end.
Proof. induction l as [|y l IH]; simpl; [done|]. by destruct (f y). Qed.

(** Two hashable values have the same key exactly when they are equal. *)
Lemma py_hash_eq (a b : value) (ka kb : hkey) :
  py_hash a = Ok ka -> py_hash b = Ok kb -> (ka = kb <-> py_eq a b = true).
Proof.
  destruct a, b; simpl; try done; intros [= <-] [= <-];
    rewrite ?Z.eqb_eq, ?String.eqb_eq; try (split; congruence).
  repeat match goal with x : bool |- _ => destruct x end; simpl; split; congruence.
Qed.

Lemma duplicates_loop_yields (items earlier : list (string * value))
    (plant_names : gmap hkey string) :
  Forall (fun kv => named (snd kv) = true) items ->
  names_filed plant_names earlier ->
  yields (duplicates_loop plant_names items) tt [] (spec_duplicates earlier items).
Proof.
  intros Hitems. revert earlier plant_names.
  induction Hitems as [|[plant_id plant_data] r Hn _ IH]; intros earlier plant_names Hf; simpl.
  - apply yields_ret.
  - simpl in Hn. apply andb_prop in Hn as [Hd Hh].
    destruct (py_get_dict plant_data "name" (VStr "") Hd) as [name En].
    assert (Hname : name_of plant_data = name) by (unfold name_of; by rewrite En).
    rewrite Hname in Hh.
    destruct (py_hash name) as [key|e] eqn:Ek; [|done].
    assert (Hkey : name_key plant_data = key) by (unfold name_key; by rewrite Hname, Ek).
    pose proof (Hf plant_data) as Hlook. rewrite Hkey in Hlook.
    unfold spec_duplicate. rewrite Hname.
    destruct (List.find (same_name plant_data) earlier) as [[first_id first_data]|] eqn:Efind;
      simpl in Hlook.
    + eapply yields_eq.
      * eapply yields_bind; [apply yields_lift, En|].
        eapply yields_bind; [apply yields_lift, Ek|].
        rewrite Hlook.
        eapply yields_bind; [apply yields_warning|].
        apply (IH (earlier ++ [(plant_id, plant_data)])).
        intros d. rewrite find_snoc. rewrite (Hf d).
        destruct (List.find (same_name d) earlier) as [[i x]|] eqn:Ed; [done|].
        unfold same_name at 1. simpl snd. case_bool_decide as Esame; [|done].
        exfalso. apply find_none in Ed.
        apply find_some in Efind as [Hin Hs]. apply list_elem_of_In in Hin.
        rewrite Forall_forall in Ed. specialize (Ed _ Hin).
        unfold same_name in Ed, Hs. simpl in Ed, Hs.
        apply bool_decide_eq_true in Hs. apply bool_decide_eq_false in Ed.
        congruence.
      * done.
      * done.
    + eapply yields_eq.
      * eapply yields_bind; [apply yields_lift, En|].
        eapply yields_bind; [apply yields_lift, Ek|].
        rewrite Hlook.
        apply (IH (earlier ++ [(plant_id, plant_data)])).
        intros d. rewrite find_snoc.
        destruct (decide (name_key d = key)) as [Ed|Ed].
        -- rewrite Ed, lookup_insert_eq.
           assert (Hnone : List.find (same_name d) earlier = None).
           { apply find_none. apply find_none in Efind.
             eapply Forall_impl; [exact Efind|]. intros x Hx. unfold same_name in *.
             apply bool_decide_eq_false in Hx. apply bool_decide_eq_false. congruence. }
           rewrite Hnone. unfold same_name. simpl snd.
           rewrite bool_decide_true by congruence. done.
        -- rewrite lookup_insert_ne by done. rewrite (Hf d).
           destruct (List.find (same_name d) earlier) as [[i x]|]; [done|].
           unfold same_name. simpl snd. rewrite bool_decide_false by congruence. done.
      * done.
      * done.
Qed.



(** *** check_wick_watering_consistency *)

Lemma lacks_wick_keyword_str (method : string) :
  lacks_wick_keyword (VStr method) = Ok (negb (wick_keyword method)).
Proof.
  unfold lacks_wick_keyword, wick_keyword. simpl.
  by destruct (str_contains "Фитиль" method).
Qed.

Lemma has_wick_keyword_str (method : string) :
  has_wick_keyword (VStr method) = Ok (wick_keyword method).
Proof.
  unfold has_wick_keyword, wick_keyword. simpl.
  by destruct (str_contains "Фитиль" method).
Qed.

Lemma lacks_manual_keyword_str (method : string) :
  lacks_manual_keyword (VStr method) = Ok (negb (manual_keyword method)).
Proof. reflexivity. Qed.

Lemma wick_views_inv plant_data recommended method :
  recommended_of plant_data = Ok recommended ->
  method_of plant_data = Ok method ->
  exists wick watering,
    py_get plant_data "wick_watering" (VDict []) = Ok wick
    /\ py_get plant_data "watering" (VDict []) = Ok watering
    /\ py_get watering "method" (VStr "") = Ok method
    /\ py_get wick "recommended" (VBool false) = Ok recommended.
Proof.
  unfold recommended_of, method_of.
  destruct (py_get plant_data "wick_watering" _) as [wick|]; [|done].
  destruct (py_get plant_data "watering" _) as [watering|]; [|done].
  intros H1 H2. by exists wick, watering.
Qed.

Lemma spec_wick_cases plant_id recommended method :
  spec_wick plant_id recommended method =
    (if truthy recommended && negb (wick_keyword method)
     then [msg_wick_expected plant_id method] else [])
    ++ (if negb (truthy recommended) && negb (is_none recommended)
           && wick_keyword method && negb (manual_keyword method)
        then [msg_wick_unexpected plant_id] else []).
Proof.
  unfold spec_wick.
  by destruct (truthy recommended), (is_none recommended), (wick_keyword method),
    (manual_keyword method).
Qed.

(** Lines 200-206, for a method that is a string. *)
Lemma wick_unexpected_yields plant_id (c : bool) method :
  yields
    (when c
       (wick_method ← lift (has_wick_keyword (VStr method));
        when wick_method
          (only_wick ← lift (lacks_manual_keyword (VStr method));
           when only_wick (append_warning (msg_wick_unexpected plant_id)))))
    tt []
    (if c && wick_keyword method && negb (manual_keyword method)
     then [msg_wick_unexpected plant_id] else []).
Proof.
  destruct c; [|apply yields_ret]. simpl when. simpl andb.
  destruct (wick_keyword method) eqn:Ew; simpl andb.
  - eapply yields_eq.
    + eapply yields_bind; [apply yields_lift, has_wick_keyword_str|].
      rewrite Ew. simpl when.
      eapply yields_bind; [apply yields_lift, lacks_manual_keyword_str|].
      apply yields_when_warning.
    + done.
    + done.
  - eapply yields_eq.
    + eapply yields_bind; [apply yields_lift, has_wick_keyword_str|].
      rewrite Ew. apply (yields_ret tt).
    + done.
    + done.
Qed.

Lemma wick_step_yields plant_id plant_data recommended method :
  recommended_of plant_data = Ok recommended ->
  method_of plant_data = Ok (VStr method) ->
  yields (wick_step plant_id plant_data) tt [] (spec_wick plant_id recommended method).
Proof.
  intros Hr Hm. destruct (wick_views_inv _ _ _ Hr Hm) as (wick & watering & H1 & H2 & H3 & H4).
  unfold wick_step. rewrite spec_wick_cases.
  eapply yields_eq.
  - eapply yields_bind; [apply yields_lift, H1|].
    eapply yields_bind; [apply yields_lift, H2|].
    eapply yields_bind; [apply yields_lift, H3|].
    eapply yields_bind; [apply yields_lift, H4|].
    eapply (yields_bind _ _ (truthy recommended && negb (wick_keyword method))).
    { apply yields_lift. destruct (truthy recommended); [|done].
      apply lacks_wick_keyword_str. }
    eapply yields_bind; [apply yields_when_warning|].
    apply wick_unexpected_yields.
  - done.
  - done.
Qed.

Lemma check_wick_yields (b : bundle) (P : list (string * value)) :
  plants_of b = Ok (VDict P) ->
  (forall kv, kv ∈ P ->
     exists recommended method,
       recommended_of (snd kv) = Ok recommended /\ method_of (snd kv) = Ok (VStr method)) ->
  yields (check_wick_watering_consistency b) tt []
    (concat (map (fun kv => spec_wick_plant (fst kv) (snd kv)) P)).
Proof.
  intros HP Hshape. unfold check_wick_watering_consistency.
  eapply yields_eq.
  - eapply yields_bind; [apply yields_print|].
    eapply yields_bind; [apply yields_lift, HP|].
    eapply yields_bind; [by apply yields_lift|].
    eapply yields_bind; [|apply yields_print].
    apply (yields_for_each _ (fun _ => []) (fun kv => spec_wick_plant (fst kv) (snd kv))).
    intros [plant_id plant_data] Hin. simpl.
    destruct (Hshape _ Hin) as (recommended & method & Hr & Hm). simpl in Hr, Hm.
    unfold spec_wick_plant. rewrite Hr, Hm. by apply wick_step_yields.
  - simpl. by rewrite concat_nils.
  - simpl. by rewrite app_nil_r.
Qed.

(** C3 (as amended). The wick-watering rule adds no Issue and at most one
    Warning for a plant. A plant whose [recommended] is absent is treated as
    one whose [recommended] is false: it gets the Warning when its method
    holds the wick keyword and not the manual keyword. A plant whose
    [recommended] is null gets no Warning whatever its method. A Warning is
    produced in two cases only: [recommended] true without the wick keyword;
    [recommended] false (absent included, null excluded) with the wick
    keyword and without the manual keyword. *)
Theorem wick_watering_findings (b : bundle) (P : list (string * value)) (st : auditor) :
  plants_of b = Ok (VDict P) ->
  (forall kv, kv ∈ P ->
     exists recommended method,
       recommended_of (snd kv) = Ok recommended /\ method_of (snd kv) = Ok (VStr method)) ->
  (exists st',
      check_wick_watering_consistency b st = (Ok tt, st')
      /\ issues st' = issues st
      /\ warnings st' = warnings st
                         ++ concat (map (fun kv => spec_wick_plant (fst kv) (snd kv)) P))
  /\ (forall plant_data wick,
        py_get plant_data "wick_watering" (VDict []) = Ok (VDict wick) ->
        assoc_get "recommended" wick = None ->
        recommended_of plant_data = Ok (VBool false))
  /\ (forall plant_id method,
        spec_wick plant_id (VBool false) method =
          if wick_keyword method && negb (manual_keyword method)
          then [msg_wick_unexpected plant_id] else [])
  /\ (forall plant_id method, spec_wick plant_id VNone method = [])
  /\ (forall plant_id recommended method,
        spec_wick plant_id recommended method <> [] <->
        (truthy recommended = true /\ wick_keyword method = false)
        \/ (truthy recommended = false /\ recommended <> VNone
             /\ wick_keyword method = true /\ manual_keyword method = false))
  /\ (forall plant_id recommended method,
        (length (spec_wick plant_id recommended method) <= 1)%nat).
Proof.
  intros HP Hshape. split; [|split; [|split; [|split; [|split]]]].
  - destruct (yields_run _ _ _ _ st (check_wick_yields b P HP Hshape)) as (st' & E & Hi & Hw).
    exists st'. by rewrite app_nil_r in Hi.
  - intros plant_data wick Hw Habsent. unfold recommended_of. rewrite Hw. simpl.
    by rewrite Habsent.
  - done.
  - done.
  - intros plant_id recommended method. unfold spec_wick.
    assert (Hnone : is_none recommended = true <-> recommended = VNone)
      by (destruct recommended; simpl; split; congruence).
    destruct (truthy recommended), (is_none recommended), (wick_keyword method),
      (manual_keyword method); simpl; intuition congruence.
  - intros plant_id recommended method. unfold spec_wick.
    destruct (truthy recommended), (is_none recommended), (wick_keyword method),
      (manual_keyword method); simpl; lia.
Qed.

(** C10. For a plant whose [recommended] is the boolean false and whose
    method holds the wick keyword in some letter case, the Warning is left
    out exactly when the method holds the manual keyword spelled as in the
    code; a method that holds the manual keyword in another letter case
    still gets the Warning. *)
Theorem wick_manual_carve_out (plant_id : string) (plant_data : value)
    (wick : list (string * value)) (method : string) (st : auditor) :
  py_get plant_data "wick_watering" (VDict []) = Ok (VDict wick) ->
  assoc_get "recommended" wick = Some (VBool false) ->
  method_of plant_data = Ok (VStr method) ->
  str_contains "фитиль" (str_lower method) = true \/ str_contains "Фитиль" method = true ->
  (exists st',
      wick_step plant_id plant_data st = (Ok tt, st')
      /\ issues st' = issues st
      /\ warnings st' = warnings st
                         ++ (if str_contains "Ручной" method then []
                             else [msg_wick_unexpected plant_id]))
  /\ (let method' := "ФИТИЛЬ / ручной" in
      str_contains "Ручной" method' = false
      /\ str_contains "ручной" (str_lower (PyRuntime := ref_runtime) method') = true
      /\ warnings (snd (check_wick_watering_consistency (R := ref_runtime)
                          (wick_bundle (Some (VBool false)) method') new_auditor))
         = [msg_wick_unexpected "p"])
  /\ warnings (snd (check_wick_watering_consistency (R := ref_runtime)
                      (wick_bundle (Some (VBool false)) "фитиль / Ручной") new_auditor))
     = [].
Proof.
  intros Hw Hflag Hm Hkey. split; [|split].
  - assert (Hr : recommended_of plant_data = Ok (VBool false)).
    { unfold recommended_of. rewrite Hw. simpl. by rewrite Hflag. }
    destruct (yields_run _ _ _ _ st (wick_step_yields plant_id plant_data _ _ Hr Hm))
      as (st' & E & Hi & Hwarn).
    exists st'. split; [done|]. split; [by rewrite app_nil_r in Hi|].
    rewrite Hwarn. unfold spec_wick, manual_keyword. simpl truthy. simpl is_none. cbv iota.
    assert (Hk : wick_keyword method = true).
    { unfold wick_keyword. destruct Hkey as [-> | ->]; [apply orb_true_r|done]. }
    rewrite Hk. by destruct (str_contains "Ручной" method).
  - vm_compute. done.
  - vm_compute. done.
Qed.

(** *** check_ppm_ph_ranges *)

Lemma try_except_yields {A} (body handler : M A) a i w :
  yields body a i w -> yields (try_except body handler) a i w.
Proof. intros H st. destruct (H st) as [o E]. exists o. unfold try_except. by rewrite E. Qed.

Lemma try_except_caught {A B} (e : exn) (k : B -> M A) (handler : M A) a i w :
  yields handler a i w -> yields (try_except (lift (Raise e) ≫= k) handler) a i w.
Proof. intros H st. destruct (H st) as [o E]. exists o. unfold try_except. by rewrite bind_lift. Qed.

Lemma ppm_check_yields plant_id ppm_range :
  yields (ppm_check plant_id ppm_range) tt
    (fst (ppm_findings plant_id ppm_range)) (snd (ppm_findings plant_id ppm_range)).
Proof.
  unfold ppm_check, ppm_findings.
  destruct (truthy ppm_range && str_contains "-" (py_str ppm_range)); [|apply yields_ret].
  simpl when.
  destruct (unpack_pair py_int (split_on "-" (py_str ppm_range))) as [[ppm_min ppm_max]|e].
  - apply try_except_yields. eapply yields_eq.
    + eapply yields_bind; [by apply yields_lift|].
      eapply yields_bind; [apply yields_when_issue|apply yields_when_warning].
    + simpl. by rewrite app_nil_r.
    + done.
  - apply try_except_caught. apply yields_warning.
Qed.

Lemma ph_check_yields plant_id ph_range :
  yields (ph_check plant_id ph_range) tt
    (fst (ph_findings plant_id ph_range)) (snd (ph_findings plant_id ph_range)).
Proof.
  unfold ph_check, ph_findings.
  destruct (truthy ph_range && str_contains "-" (py_str ph_range)); [|apply yields_ret].
  simpl when.
  destruct (unpack_pair py_float (split_on "-" (py_str ph_range))) as [[ph_min ph_max]|e].
  - apply try_except_yields. eapply yields_eq.
    + eapply yields_bind; [by apply yields_lift|].
      eapply yields_bind; [apply yields_when_issue|apply yields_when_warning].
    + simpl. by rewrite app_nil_r.
    + done.
  - apply try_except_caught. apply yields_warning.
Qed.

Lemma ppm_findings_length plant_id ppm_range :
  (length (fst (ppm_findings plant_id ppm_range)) <= 1)%nat
  /\ (length (snd (ppm_findings plant_id ppm_range)) <= 1)%nat.
Proof.
  unfold ppm_findings.
  destruct (_ && _); [|simpl; lia].
  destruct (unpack_pair _ _) as [[lo hi]|e]; simpl; [|lia].
  destruct (lo >=? hi), ((lo <? 0) || (hi >? 500)); simpl; lia.
Qed.

Lemma ph_findings_length plant_id ph_range :
  (length (fst (ph_findings plant_id ph_range)) <= 1)%nat
  /\ (length (snd (ph_findings plant_id ph_range)) <= 1)%nat.
Proof.
  unfold ph_findings.
  destruct (_ && _); [|simpl; lia].
  destruct (unpack_pair _ _) as [[lo hi]|e]; [|simpl; lia].
  destruct (float_leb hi lo), (float_ltb lo (float_of_Z 4) || float_ltb (float_of_Z 8) hi);
    simpl; lia.
Qed.

Lemma range_step_yields plant_id (entry : list (string * value)) :
  yields (range_step plant_id (VDict entry)) tt
    (fst (ppm_findings plant_id (field "ppm_range" entry))
       ++ fst (ph_findings plant_id (field "ph_range" entry)))
    (snd (ppm_findings plant_id (field "ppm_range" entry))
       ++ snd (ph_findings plant_id (field "ph_range" entry))).
Proof.
  unfold range_step. eapply yields_eq.
  - eapply yields_bind; [by apply yields_lift|].
    eapply yields_bind; [by apply yields_lift|].
    eapply yields_bind; [apply ppm_check_yields|apply ph_check_yields].
  - done.
  - done.
Qed.


(** C4 (as amended). The two sub-checks of a requirement never raise and
    are independent: the findings of the requirement are those of the ppm
    sub-check, a function of [ppm_range] alone, followed by those of the ph
    sub-check, a function of [ph_range] alone. Each sub-check adds at most
    one Issue and at most one Warning, hence at most two findings, and the
    requirement at most four. *)
Theorem range_checks_bounded (plant_id : string) (entry : list (string * value))
    (st : auditor) :
  let ppm := ppm_findings plant_id (field "ppm_range" entry) in
  let ph := ph_findings plant_id (field "ph_range" entry) in
  (exists st',
      range_step plant_id (VDict entry) st = (Ok tt, st')
      /\ issues st' = issues st ++ fst ppm ++ fst ph
      /\ warnings st' = warnings st ++ snd ppm ++ snd ph)
  /\ (length (fst ppm) <= 1)%nat /\ (length (snd ppm) <= 1)%nat
  /\ (length (fst ph) <= 1)%nat /\ (length (snd ph) <= 1)%nat
  /\ (length (fst ppm ++ snd ppm) <= 2)%nat
  /\ (length (fst ph ++ snd ph) <= 2)%nat
  /\ (length ((fst ppm ++ fst ph) ++ snd ppm ++ snd ph) <= 4)%nat.
Proof.
  intros ppm ph.
  destruct (ppm_findings_length plant_id (field "ppm_range" entry)) as [H1 H2].
  destruct (ph_findings_length plant_id (field "ph_range" entry)) as [H3 H4].
  fold ppm in H1, H2. fold ph in H3, H4.
  split.
  - destruct (yields_run _ _ _ _ st (range_step_yields plant_id entry)) as (st' & E & Hi & Hw).
    by exists st'.
  - rewrite !length_app. lia.
Qed.

End Properties.

(** ** Scenarios *)

(** C1 (as stated) fails: the audit of the empty bundle produces Warnings. *)
Lemma empty_bundle_not_clean : ~ clean_run empty_bundle.
Proof. intros (_ & H & _). vm_compute in H. discriminate H. Qed.

(** C2 (fails on the code). On a plant whose [alternative_mix] holds only
    white space the Plant-to-SoilMix rule does not return: [split()] yields
    no token and taking the first one raises [IndexError], which nothing
    catches; the audit ends with exit status 1 and no report. *)
Theorem blank_alternative_mix_raises :
  fst (check_plant_soil_references blank_alternative_mix new_auditor) = Raise IndexError
  /\ fst (main blank_alternative_mix) = Raise IndexError
  /\ exit_status (fst (main blank_alternative_mix)) = 1
  /\ issues (snd (main blank_alternative_mix)) = [].
Proof. repeat split; vm_compute; reflexivity. Qed.

(** C6 (fails on the code). Plant [aloe] refers to mix 99, which is the
    number of no soil mix, and yet gets no Issue: the plant before it has an
    alternative mix of white space only, on which the Plant-to-SoilMix rule
    raises [IndexError] before the loop reaches [aloe]. The only finding of
    the run is the Issue of the first plant, and no finding names [aloe]. *)
Theorem mix_issue_lost_after_raise :
  let run := check_plant_soil_references blank_then_aloe_bundle new_auditor in
  plants_of blank_then_aloe_bundle = Ok (VDict blank_then_aloe)
  /\ soil_mixes_of blank_then_aloe_bundle = Ok (VDict aloe_mixes)
  /\ mix_number_of (VDict [("soil", VDict [("mix_number", VStr "99")])]) = Ok "99"
  /\ ~ "99" ∈ mix_numbers aloe_mixes
  /\ fst run = Raise IndexError
  /\ issues (snd run) = [msg_bad_mix "p" "7"]
  /\ warnings (snd run) = []
  /\ ~ msg_bad_mix "aloe" "99" ∈ issues (snd run)
  /\ (forall finding, finding ∈ issues (snd run) ++ warnings (snd run) ->
       str_contains "aloe" finding = false).
Proof.
  intros run.
  assert (Hi : issues (snd run) = [msg_bad_mix "p" "7"]) by (vm_compute; reflexivity).
  assert (Hw : warnings (snd run) = []) by (vm_compute; reflexivity).
  split; [reflexivity|]. split; [reflexivity|]. split; [reflexivity|].
  split.
  { intros H.
    assert (Hb : bool_decide ("99" ∈ mix_numbers aloe_mixes) = true)
      by exact (bool_decide_eq_true_2 _ H).
    vm_compute in Hb. discriminate Hb. }
  split; [vm_compute; reflexivity|]. split; [exact Hi|]. split; [exact Hw|].
  split.
  - rewrite Hi. intros H. apply list_elem_of_singleton in H.
    assert (Hc : str_contains "aloe" (msg_bad_mix "aloe" "99") = true) by reflexivity.
    rewrite H in Hc. vm_compute in Hc. discriminate Hc.
  - intros finding. rewrite Hi, Hw, app_nil_r. intros H.
    apply list_elem_of_singleton in H as ->. vm_compute. reflexivity.
Qed.

(** C8 (fails on the code). The audit of a plant whose alternative mix
    holds only white space ends with exit status 1 although no Issue was
    produced: the first rule raises [IndexError], the script stops before
    the report, and the interpreter exits with status 1. The Issue list is
    empty, so the flag "is healthy" would be true. *)
Theorem exit_one_without_issue :
  let outcome := fst (main blank_alternative_mix) in
  let final := snd (main blank_alternative_mix) in
  outcome = Raise IndexError
  /\ exit_status outcome = 1
  /\ issues final = []
  /\ warnings final = []
  /\ is_healthy final = true
  /\ ~ (exit_status outcome <> 0 <-> issues final <> []).
Proof.
  intros outcome final.
  assert (Ho : exit_status outcome = 1) by (vm_compute; reflexivity).
  assert (Hi : issues final = []) by (vm_compute; reflexivity).
  split; [vm_compute; reflexivity|]. split; [exact Ho|]. split; [exact Hi|].
  split; [vm_compute; reflexivity|]. split; [vm_compute; reflexivity|].
  intros [H _]. apply H; [|exact Hi]. rewrite Ho. discriminate.
Qed.

(** C3 (as stated) fails: a plant without the key [recommended] whose method
    is the wick keyword gets a Warning. *)
Lemma absent_recommended_warns :
  assoc_get "recommended" ([] : list (string * value)) = None
  /\ ~ no_wick_finding (wick_bundle None "Фитиль")
  /\ findings_of (check_wick_watering_consistency (wick_bundle None "Фитиль"))
     = [msg_wick_unexpected "p"].
Proof.
  split; [reflexivity|]. split; [|vm_compute; reflexivity].
  intros [_ H]. vm_compute in H. discriminate H.
Qed.

(** C4 (as stated) fails: the ppm sub-check alone adds two findings for the
    range 700-600, and a requirement whose two ranges are reversed and
    unusual adds four. *)
Lemma reversed_ppm_two_findings :
  ~ (length (findings_of (ppm_check "p" (VStr "700-600"))) <= 1)%nat
  /\ ~ (length (findings_of (range_step "p" (VDict reversed_ranges))) <= 2)%nat
  /\ findings_of (ppm_check "p" (VStr "700-600"))
     = [msg_ppm_reversed "p" "700-600"; msg_ppm_unusual "p" "700-600"]
  /\ length (findings_of (range_step "p" (VDict reversed_ranges))) = 4%nat.
Proof.
  split; [|split; [|split]].
  - vm_compute. lia.
  - vm_compute. lia.
  - vm_compute. reflexivity.
  - vm_compute. reflexivity.
Qed.

(** *** The theorems at the scenarios *)

Lemma plant_water_completeness_witness :
  plants_of completeness_bundle = Ok (VDict completeness_plants)
  /\ individual_of completeness_bundle = Ok (VDict completeness_requirements)
  /\ exists st' missing extra,
       check_plant_water_references completeness_bundle new_auditor = (Ok tt, st')
       /\ issues st' = map msg_missing_water missing
       /\ warnings st' = map msg_unknown_plant extra
       /\ (forall k, k ∈ missing <-> k = "A")
       /\ (forall k, k ∈ extra <-> k = "Z").
Proof.
  split; [reflexivity|]. split; [reflexivity|].
  destruct (plant_water_completeness completeness_bundle completeness_plants
              completeness_requirements new_auditor eq_refl eq_refl)
    as (st' & missing & extra & E & Hi & Hw & _ & _ & Hm & He & _).
  exists st', missing, extra. split; [exact E|]. split; [exact Hi|]. split; [exact Hw|].
  split; intros k.
  - rewrite Hm. unfold completeness_plants, completeness_requirements. simpl.
    rewrite !elem_of_cons, !elem_of_nil. split.
    + intros [[->|[->|[]]] Hn]; [done|]. exfalso. apply Hn. by left.
    + intros ->. split; [by left|]. intros [?|[?|[]]]; done.
  - rewrite He. unfold completeness_plants, completeness_requirements. simpl.
    rewrite !elem_of_cons, !elem_of_nil. split.
    + intros [[->|[->|[]]] Hn]; [|done]. exfalso. apply Hn. right. by left.
    + intros ->. split; [right; by left|]. intros [?|[?|[]]]; done.
Defined.

Lemma plant_soil_membership_witness :
  plants_of aloe_bundle = Ok (VDict aloe_plants)
  /\ soil_mixes_of aloe_bundle = Ok (VDict aloe_mixes)
  /\ exists st',
       check_plant_soil_references aloe_bundle new_auditor = (Ok tt, st')
       /\ issues st' = [msg_bad_mix "aloe" "99"].
Proof.
  split; [reflexivity|]. split; [reflexivity|].
  exists (snd (check_plant_soil_references aloe_bundle new_auditor)).
  split; [vm_compute; reflexivity|].
  destruct (plant_soil_membership aloe_bundle aloe_plants aloe_mixes new_auditor
              (snd (check_plant_soil_references aloe_bundle new_auditor)))
    as (valid & Hvalid & Hi & Hone & _); [reflexivity|reflexivity|vm_compute; reflexivity|].
  rewrite Hi. simpl.
  rewrite (Hone "aloe" _ "99"); [reflexivity|by left|reflexivity|done|].
  rewrite Hvalid. intros (mix_id & mix_data & number & Hin & Hn & Hs).
  unfold aloe_mixes in Hin. rewrite !elem_of_cons, elem_of_nil in Hin.
  destruct Hin as [[= -> ->]|[[= -> ->]|[]]]; injection Hn as <-; vm_compute in Hs;
    discriminate Hs.
Defined.

Lemma audit_exit_status_witness :
  run_rules aloe_bundle (snd (print banner new_auditor))
    = (Ok tt, snd (run_rules aloe_bundle (snd (print banner new_auditor))))
  /\ exists outcome final,
       audit_all aloe_bundle new_auditor = (outcome, final)
       /\ exit_status outcome = 1 /\ issues final <> [] /\ is_healthy final = false.
Proof.
  split; [vm_compute; reflexivity|].
  destruct (audit_exit_status aloe_bundle new_auditor
              (snd (run_rules aloe_bundle (snd (print banner new_auditor)))))
    as (outcome & final & E & Hi & Hw & H1 & H0 & Hh); [vm_compute; reflexivity|].
  exists outcome, final. split; [exact E|].
  assert (Hne : issues final <> []) by (rewrite Hi; vm_compute; discriminate).
  split; [by apply H1|]. split; [exact Hne|].
  destruct (is_healthy final); [|reflexivity]. by destruct Hne; apply Hh.
Defined.

Lemma water_group_findings_witness :
  individual_of pothos_bundle = Ok (VDict pothos_requirements)
  /\ water_groups_of pothos_bundle = Ok (VDict pothos_groups)
  /\ exists st',
       check_water_group_consistency pothos_bundle new_auditor = (Ok tt, st')
       /\ issues st' = [msg_wrong_group "Pothos" "water_group_a" "B"]
       /\ warnings st' = [].
Proof.
  split; [reflexivity|]. split; [reflexivity|].
  destruct (water_group_findings pothos_bundle pothos_requirements pothos_groups
              new_auditor eq_refl eq_refl)
    as [(st' & E & Hi & Hw) _].
  - repeat constructor.
  - intros g Hg. apply list_elem_of_singleton in Hg as ->. by eexists.
  - exists st'. split; [exact E|]. split; [exact Hi|exact Hw].
Defined.


Lemma wick_watering_findings_witness :
  plants_of (wick_bundle None "Фитиль") = Ok (VDict [("p", wick_plant None "Фитиль")])
  /\ exists st',
       check_wick_watering_consistency (wick_bundle None "Фитиль") new_auditor = (Ok tt, st')
       /\ issues st' = []
       /\ warnings st' = [msg_wick_unexpected "p"].
Proof.
  split; [reflexivity|].
  destruct (wick_watering_findings (wick_bundle None "Фитиль")
              [("p", wick_plant None "Фитиль")] new_auditor eq_refl)
    as [(st' & E & Hi & Hw) _].
  - intros kv Hkv. apply list_elem_of_singleton in Hkv as ->.
    exists (VBool false), "Фитиль". split; reflexivity.
  - exists st'. split; [exact E|]. split; [exact Hi|exact Hw].
Defined.

Lemma wick_manual_carve_out_witness :
  method_of (wick_plant (Some (VBool false)) "ФИТИЛЬ / ручной") = Ok (VStr "ФИТИЛЬ / ручной")
  /\ str_contains "фитиль" (str_lower "ФИТИЛЬ / ручной") = true
  /\ exists st',
       wick_step "p" (wick_plant (Some (VBool false)) "ФИТИЛЬ / ручной") new_auditor
         = (Ok tt, st')
       /\ warnings st' = [msg_wick_unexpected "p"].
Proof.
  split; [reflexivity|]. split; [vm_compute; reflexivity|].
  destruct (wick_manual_carve_out "p" (wick_plant (Some (VBool false)) "ФИТИЛЬ / ручной")
              [("recommended", VBool false)] "ФИТИЛЬ / ручной" new_auditor
              eq_refl eq_refl eq_refl)
    as [(st' & E & Hi & Hw) _].
  - left. vm_compute. reflexivity.
  - exists st'. split; [exact E|exact Hw].
Defined.

(** ** More about the code *)

(** *** Commands only append *)

Lemma grows_ret {A} (a : A) : grows (mret a : M A).
Proof. intros st. by repeat split. Qed.

Lemma grows_lift {A} (r : res A) : grows (lift r).
Proof. intros st. by repeat split. Qed.

Lemma grows_raise {A} (e : exn) : grows (raise e : M A).
Proof. intros st. by repeat split. Qed.

Lemma grows_bind {A B} (m : M A) (k : A -> M B) :
  grows m -> (forall a, grows (k a)) -> grows (m ≫= k).
Proof.
  intros Hm Hk st. rewrite bind_run. destruct (Hm st) as (H1 & H2 & H3).
  destruct (m st) as [[a|e] st1]; simpl in *; [|done].
  destruct (Hk a st1) as (K1 & K2 & K3).
  repeat split; etrans; eauto.
Qed.

Lemma grows_append_issue msg : grows (append_issue msg).
Proof. intros st. simpl. repeat split; try done. by apply prefix_app_r. Qed.

Lemma grows_append_warning msg : grows (append_warning msg).
Proof. intros st. simpl. repeat split; try done. by apply prefix_app_r. Qed.

Lemma grows_print line : grows (print line).
Proof. intros st. simpl. repeat split; try done. by apply prefix_app_r. Qed.

Lemma grows_get_issues : grows get_issues.
Proof. intros st. by repeat split. Qed.

Lemma grows_get_warnings : grows get_warnings.
Proof. intros st. by repeat split. Qed.

Lemma grows_when (c : bool) (body : M unit) : grows body -> grows (when c body).
Proof. destruct c; [done|]. intros _. apply grows_ret. Qed.

Lemma grows_for_each {A} (l : list A) (body : A -> M unit) :
  (forall x, grows (body x)) -> grows (for_each l body).
Proof.
  intros H. induction l as [|x l IH]; simpl; [apply grows_ret|].
  apply grows_bind; [apply H|by intros _].
Qed.

Lemma grows_try_except {A} (body handler : M A) :
  grows body -> grows handler -> grows (try_except body handler).
Proof.
  intros Hb Hh st. unfold try_except. destruct (Hb st) as (H1 & H2 & H3).
  destruct (body st) as [[a|e] st1]; simpl in *; [done|].
  destruct (Hh st1) as (K1 & K2 & K3). repeat split; etrans; eauto.
Qed.

(** One step of a proof that a command only appends. *)
Ltac grows_step :=
  match goal with
  | |- grows (_ ≫= _) => apply grows_bind; [|intros]
  | |- grows (mret _) => apply grows_ret
  | |- grows (lift _) => apply grows_lift
  | |- grows (raise _) => apply grows_raise
  | |- grows (append_issue _) => apply grows_append_issue
  | |- grows (append_warning _) => apply grows_append_warning
  | |- grows (print _) => apply grows_print
  | |- grows get_issues => apply grows_get_issues
  | |- grows get_warnings => apply grows_get_warnings
  | |- grows (when _ _) => apply grows_when
  | |- grows (for_each _ _) => apply grows_for_each; intros
  | |- grows (try_except _ _) => apply grows_try_except
  | |- grows (if ?c then _ else _) => destruct c
  | |- grows (match ?x with _ => _ end) => destruct x
  | |- grows (let '(_, _) := ?x in _) => destruct x
  end.

Section Coverage.
Context {R : PyRuntime}.

Lemma grows_find_requirement group_id plant_name items :
  grows (find_requirement group_id plant_name items).
Proof.
  induction items as [|[plant_id plant_data] r IH]; simpl; [apply grows_ret|].
  repeat grows_step. exact IH.
Qed.

Lemma grows_duplicates_loop plant_names items : grows (duplicates_loop plant_names items).
Proof.
  revert plant_names. induction items as [|[plant_id plant_data] r IH]; intros plant_names;
    simpl; [apply grows_ret|].
  repeat grows_step; apply IH.
Qed.

Lemma grows_run_rules (b : bundle) : grows (run_rules b).
Proof.
  unfold run_rules, check_plant_soil_references, check_plant_water_references,
    check_soil_component_references, check_water_group_consistency,
    check_wick_watering_consistency, check_ppm_ph_ranges, check_duplicates_and_conflicts,
    plant_soil_step, water_group_step, group_member_step, wick_step, range_step,
    ppm_check, ph_check.
  repeat first [apply grows_find_requirement | apply grows_duplicates_loop | grows_step].
Qed.

Lemma grows_print_report : grows print_report.
Proof. unfold print_report. repeat grows_step. Qed.


(** *** Only the report exits *)

Lemma no_exit_ok {A} (a : A) : no_exit (Ok a).
Proof. by intros code. Qed.

Lemma no_exit_bind {A B} (r : res A) (k : A -> res B) :
  no_exit r -> (forall a, no_exit (k a)) -> no_exit (r ≫= k).
Proof.
  destruct r as [a|e]; intros Hr Hk.
  - apply Hk.
  - intros code [= ->]. by apply (Hr code).
Qed.

(** One step of a proof that a result is no [SystemExit]. *)
Ltac no_exit_step :=
  match goal with
  | |- no_exit (Ok _) => apply no_exit_ok
  | |- no_exit (mret _) => apply no_exit_ok
  | |- no_exit (Raise AttributeError) => by intros code
  | |- no_exit (Raise TypeError) => by intros code
  | |- no_exit (Raise IndexError) => by intros code
  | |- no_exit (Raise ValueError) => by intros code
  | |- no_exit (_ ≫= _) => apply no_exit_bind; [|intros]
  | |- no_exit (if ?c then _ else _) => destruct c
  | |- no_exit (match ?x with _ => _ end) => destruct x
  end.

Lemma no_exit_py_get d k default : no_exit (py_get d k default).
Proof. unfold py_get. repeat no_exit_step. Qed.

Lemma no_exit_py_items d : no_exit (py_items d).
Proof. unfold py_items. repeat no_exit_step. Qed.

Lemma no_exit_py_keys d : no_exit (py_keys d).
Proof. unfold py_keys. repeat no_exit_step. Qed.

Lemma no_exit_py_iter v : no_exit (py_iter v).
Proof. unfold py_iter. repeat no_exit_step. Qed.

Lemma no_exit_py_hash v : no_exit (py_hash v).
Proof. unfold py_hash. repeat no_exit_step. Qed.

Lemma no_exit_py_in x v : no_exit (py_in x v).
Proof. unfold py_in. repeat no_exit_step. Qed.

Lemma no_exit_py_lower v : no_exit (py_lower v).
Proof. unfold py_lower. repeat no_exit_step. Qed.

Lemma no_exit_py_split v : no_exit (py_split v).
Proof. unfold py_split. repeat no_exit_step. Qed.

Lemma no_exit_unpack_pair {A} (conv : string -> option A) tokens :
  no_exit (unpack_pair conv tokens).
Proof. unfold unpack_pair. repeat no_exit_step. Qed.

(** One step on the operations of the rules. *)
Ltac no_exit_op :=
  first [ apply no_exit_py_get | apply no_exit_py_items | apply no_exit_py_keys
        | apply no_exit_py_iter | apply no_exit_py_hash | apply no_exit_py_in
        | apply no_exit_py_lower | apply no_exit_py_split | apply no_exit_unpack_pair
        | no_exit_step ].

Lemma no_exit_valid_mix_numbers acc items : no_exit (valid_mix_numbers acc items).
Proof.
  revert acc. induction items as [|[mix_id mix_data] r IH]; intros acc; simpl.
  - apply no_exit_ok.
  - apply no_exit_bind; [apply no_exit_py_get|]. intros number. apply IH.
Qed.

Lemma no_exit_first_token alt_mix : no_exit (first_token alt_mix).
Proof. unfold first_token. repeat no_exit_op. Qed.

Lemma no_exit_add_component_names acc items : no_exit (add_component_names acc items).
Proof.
  revert acc. induction items as [|[comp_id comp_data] r IH]; intros acc; simpl.
  - apply no_exit_ok.
  - apply no_exit_bind; [apply no_exit_py_get|]. intros name.
    destruct (truthy name); [|apply IH].
    apply no_exit_bind; [apply no_exit_py_hash|]. intros h. apply IH.
Qed.

Lemma no_exit_collect_components data acc categories :
  no_exit (collect_components data acc categories).
Proof.
  revert acc. induction categories as [|category r IH]; intros acc; simpl.
  - apply no_exit_ok.
  - apply no_exit_bind; [apply no_exit_py_get|]. intros category_data.
    apply no_exit_bind; [apply no_exit_py_items|]. intros items.
    apply no_exit_bind; [apply no_exit_add_component_names|]. intros valid. apply IH.
Qed.

Lemma no_exit_any_component comp members : no_exit (any_component comp members).
Proof.
  induction members as [|[| |vc] r IH]; simpl; try by intros code.
  by destruct (str_contains _ _).
Qed.

Lemma no_exit_lacks_wick_keyword v : no_exit (lacks_wick_keyword v).
Proof. unfold lacks_wick_keyword. repeat no_exit_op. Qed.

Lemma no_exit_has_wick_keyword v : no_exit (has_wick_keyword v).
Proof. unfold has_wick_keyword. repeat no_exit_op. Qed.

Lemma no_exit_lacks_manual_keyword v : no_exit (lacks_manual_keyword v).
Proof. unfold lacks_manual_keyword. repeat no_exit_op. Qed.

Lemma never_exits_ret {A} (a : A) : never_exits (mret a : M A).
Proof. by intros st code. Qed.

Lemma never_exits_lift {A} (r : res A) : no_exit r -> never_exits (lift r).
Proof. by intros H st. Qed.

Lemma never_exits_bind {A B} (m : M A) (k : A -> M B) :
  never_exits m -> (forall a, never_exits (k a)) -> never_exits (m ≫= k).
Proof.
  intros Hm Hk st. rewrite bind_run. specialize (Hm st).
  destruct (m st) as [[a|e] st1]; simpl in *; [apply Hk|].
  intros code [= ->]. by apply (Hm code).
Qed.

Lemma never_exits_append_issue msg : never_exits (append_issue msg).
Proof. by intros st code. Qed.

Lemma never_exits_append_warning msg : never_exits (append_warning msg).
Proof. by intros st code. Qed.

Lemma never_exits_print line : never_exits (print line).
Proof. by intros st code. Qed.

Lemma never_exits_when (c : bool) (body : M unit) :
  never_exits body -> never_exits (when c body).
Proof. destruct c; [done|]. intros _. apply never_exits_ret. Qed.

Lemma never_exits_for_each {A} (l : list A) (body : A -> M unit) :
  (forall x, never_exits (body x)) -> never_exits (for_each l body).
Proof.
  intros H. induction l as [|x l IH]; simpl; [apply never_exits_ret|].
  apply never_exits_bind; [apply H|by intros _].
Qed.

(** A bare [except] also catches [SystemExit]: only the handler counts. *)
Lemma never_exits_try_except {A} (body handler : M A) :
  never_exits handler -> never_exits (try_except body handler).
Proof.
  intros Hh st. unfold try_except.
  destruct (body st) as [[a|e] st1]; simpl; [by intros code|apply Hh].
Qed.

(** One step of a proof that a command raises no [SystemExit]. *)
Ltac never_exits_step :=
  match goal with
  | |- never_exits (_ ≫= _) => apply never_exits_bind; [|intros]
  | |- never_exits (mret _) => apply never_exits_ret
  | |- never_exits (lift _) => apply never_exits_lift
  | |- never_exits (append_issue _) => apply never_exits_append_issue
  | |- never_exits (append_warning _) => apply never_exits_append_warning
  | |- never_exits (print _) => apply never_exits_print
  | |- never_exits (when _ _) => apply never_exits_when
  | |- never_exits (for_each _ _) => apply never_exits_for_each; intros
  | |- never_exits (try_except _ _) => apply never_exits_try_except
  | |- never_exits (if ?c then _ else _) => destruct c
  | |- never_exits (match ?x with _ => _ end) => destruct x
  | |- no_exit (valid_mix_numbers _ _) => apply no_exit_valid_mix_numbers
  | |- no_exit (first_token _) => apply no_exit_first_token
  | |- no_exit (collect_components _ _ _) => apply no_exit_collect_components
  | |- no_exit (any_component _ _) => apply no_exit_any_component
  | |- no_exit (lacks_wick_keyword _) => apply no_exit_lacks_wick_keyword
  | |- no_exit (has_wick_keyword _) => apply no_exit_has_wick_keyword
  | |- no_exit (lacks_manual_keyword _) => apply no_exit_lacks_manual_keyword
  | |- no_exit _ => no_exit_op
  end.

Lemma never_exits_find_requirement group_id plant_name items :
  never_exits (find_requirement group_id plant_name items).
Proof.
  induction items as [|[plant_id plant_data] r IH]; simpl; [apply never_exits_ret|].
  repeat never_exits_step. exact IH.
Qed.

Lemma never_exits_duplicates_loop plant_names items :
  never_exits (duplicates_loop plant_names items).
Proof.
  revert plant_names. induction items as [|[plant_id plant_data] r IH]; intros plant_names;
    simpl; [apply never_exits_ret|].
  repeat never_exits_step; apply IH.
Qed.

Lemma never_exits_run_rules (b : bundle) : never_exits (run_rules b).
Proof.
  unfold run_rules, check_plant_soil_references, check_plant_water_references,
    check_soil_component_references, check_water_group_consistency,
    check_wick_watering_consistency, check_ppm_ph_ranges, check_duplicates_and_conflicts,
    plant_soil_step, water_group_step, group_member_step, wick_step, range_step,
    ppm_check, ph_check.
  repeat first [ apply never_exits_find_requirement | apply never_exits_duplicates_loop
               | never_exits_step ].
Qed.

Lemma audit_keeps_findings (b : bundle) (st : auditor) :
  issues st `prefix_of` issues (snd (audit_all b st))
  /\ warnings st `prefix_of` warnings (snd (audit_all b st)).
Proof.
  assert (H : grows (audit_all b)).
  { unfold audit_all. apply grows_bind; [apply grows_print|]. intros _.
    apply grows_bind; [apply grows_run_rules|]. intros _. apply grows_print_report. }
  destruct (H st) as (H1 & H2 & _). by split.
Qed.


Lemma audit_exit_cases (b : bundle) (st0 : auditor) :
  let outcome := fst (audit_all b st0) in
  let final := snd (audit_all b st0) in
  (exit_status outcome = 0 \/ exit_status outcome = 1)
  /\ (exit_status outcome = 0 <->
      (exists st1, run_rules b (snd (print banner st0)) = (Ok tt, st1)) /\ issues final = [])
  /\ (exit_status outcome = 0 -> issues st0 = []).
Proof.
  intros outcome final.
  assert (Hpre : issues st0 `prefix_of` issues final).
  { destruct (audit_keeps_findings b st0) as [H _]. exact H. }
  subst outcome final. revert Hpre. unfold audit_all.
  rewrite bind_run. change (print banner st0) with (Ok tt, snd (print banner st0)).
  cbv iota beta. rewrite bind_run.
  pose proof (never_exits_run_rules b (snd (print banner st0))) as Hne.
  destruct (run_rules b (snd (print banner st0))) as [[[]|e] st1] eqn:Erules; simpl in Hne.
  - destruct (print_report_outcome st1) as (final & E & Hi & Hw). rewrite E. simpl.
    intros Hpre.
    assert (Hz : forall l : list string, nonempty l = false <-> l = [])
      by (intros [|x l]; simpl; split; congruence).
    destruct (nonempty (issues st1)) eqn:Ei; simpl.
    + assert (issues final <> []) by (rewrite Hi; intros Hnil; apply Hz in Hnil; congruence).
      split; [by right|]. split; [split; [done|by intros [_ ?]]|done].
    + assert (Hnil : issues final = []) by (rewrite Hi; by apply Hz).
      assert (H0 : issues st0 = []).
      { rewrite Hnil in Hpre. by apply prefix_nil_inv in Hpre. }
      destruct (nonempty (warnings st1)); simpl;
        (split; [by left|]); (split; [|done]); (split; [|done]); intros _;
        (split; [by exists st1|done]).
  - intros _.
    assert (Hexit : exit_status (Raise e : res unit) = 1).
    { destruct e; try done. by destruct (Hne code). }
    cbv iota beta. simpl fst. simpl snd. rewrite Hexit.
    split; [by right|]. split; [|intros [=]].
    split; [intros [=]|]. intros [[st2 E2] _].
    change (run_rules b (snd (print banner st0)) = (Ok tt, st2)) in E2. congruence.
Qed.

(** X2. The exit status of the audit is 0 or 1, from any bundle and any
    state of the auditor. It is 0 exactly when the seven rules all returned
    and the auditor holds no Issue at the end; in particular a status of 0
    is never the result of an exception. *)
Theorem exit_status_sound (b : bundle) (st0 : auditor) :
  let outcome := fst (audit_all b st0) in
  let final := snd (audit_all b st0) in
  (exit_status outcome = 0 \/ exit_status outcome = 1)
  /\ (exit_status outcome = 0 <->
      (exists st1, run_rules b (snd (print banner st0)) = (Ok tt, st1)) /\ issues final = [])
  /\ (exit_status outcome = 0 -> issues st0 = []).
Proof. apply audit_exit_cases. Qed.

(** *** The report *)

Lemma printed_printed st l1 l2 : printed (printed st l1) l2 = printed st (l1 ++ l2).
Proof. unfold printed; simpl. by rewrite app_assoc. Qed.

Lemma printed_nil st : printed st [] = st.
Proof. destruct st; unfold printed; simpl. by rewrite app_nil_r. Qed.

Lemma printed_issues st l : issues (printed st l) = issues st.
Proof. reflexivity. Qed.

Lemma printed_warnings st l : warnings (printed st l) = warnings st.
Proof. reflexivity. Qed.

Lemma prints_print line : prints (print line) [line].
Proof. by intros st. Qed.

Lemma prints_ret : prints (mret tt) [].
Proof. intros st. by rewrite printed_nil. Qed.

Lemma prints_bind (m : M unit) (k : unit -> M unit) l1 l2 :
  prints m l1 -> prints (k tt) l2 -> prints (m ≫= k) (l1 ++ l2).
Proof. intros Hm Hk st. by rewrite bind_run, Hm, Hk, printed_printed. Qed.

Lemma prints_for_each (f : string -> string) (lines : list string) :
  prints (for_each lines (fun line => print (f line))) (map f lines).
Proof.
  induction lines as [|x l IH]; simpl; [apply prints_ret|].
  apply (prints_bind _ _ [f x]); [apply prints_print|apply IH].
Qed.

Lemma prints_report_block (title : string) (messages : list string) :
  prints (when (nonempty messages)
            (print title;; for_each messages (fun m => print ("  " +:+ m));; print ""))
         (report_block title messages).
Proof.
  unfold report_block. destruct (nonempty messages); simpl when; [|apply prints_ret].
  apply (prints_bind _ _ [title]); [apply prints_print|].
  apply prints_bind; [apply prints_for_each|apply prints_print].
Qed.

Lemma print_report_run (st : auditor) :
  print_report st
  = (report_outcome (issues st) (warnings st),
     printed st (report_lines (issues st) (warnings st))).
Proof.
  unfold print_report, report_lines, report_outcome.
  rewrite bind_run, prints_print. cbv iota beta.
  rewrite bind_run, prints_print. cbv iota beta.
  rewrite bind_run, prints_print. cbv iota beta.
  rewrite !printed_printed.
  rewrite bind_run. unfold get_issues at 1. cbv iota beta.
  rewrite bind_run. unfold get_warnings at 1. cbv iota beta.
  rewrite !printed_issues, !printed_warnings.
  destruct (negb (nonempty (issues st)) && negb (nonempty (warnings st))) eqn:Eboth.
  - cbv iota. rewrite prints_print, printed_printed.
    apply andb_prop in Eboth as [Ei Ew].
    apply negb_true_iff in Ei, Ew. by rewrite Ei, Ew.
  - cbv iota. rewrite bind_run, prints_report_block. cbv iota beta.
    rewrite bind_run.
    rewrite (prints_report_block _ (warnings st)). cbv iota beta.
    rewrite bind_run, prints_print. cbv iota beta.
    rewrite bind_run, prints_print. cbv iota beta.
    rewrite bind_run, prints_print. cbv iota beta.
    rewrite !printed_printed, <- !app_assoc. simpl app.
    destruct (nonempty (issues st)) eqn:Ei; [done|].
    destruct (nonempty (warnings st)) eqn:Ew; [done|done].
Qed.

(** X3. The report never touches the findings. It prints a header, then
    either the single line that nothing was found, or the block of the
    Issues (if any) and then the block of the Warnings (if any), each
    message once, in the order in which it was found and indented by two
    spaces, then the summary with the two counts. It returns only when
    nothing was found; otherwise it exits, with status 1 when there is an
    Issue and 0 when there are only Warnings. *)
Theorem print_report_renders (st : auditor) :
  let final := snd (print_report st) in
  fst (print_report st) = report_outcome (issues st) (warnings st)
  /\ issues final = issues st /\ warnings final = warnings st
  /\ stdout final = stdout st ++ report_lines (issues st) (warnings st)
  /\ (forall m, m ∈ issues st ++ warnings st ->
        "  " +:+ m ∈ report_lines (issues st) (warnings st))
  /\ (length (report_lines (issues st) (warnings st)) =
        match issues st, warnings st with
        | [], [] => 4
        | [], _ :: _ => 8 + length (warnings st)
        | _ :: _, [] => 8 + length (issues st)
        | _ :: _, _ :: _ => 10 + length (issues st) + length (warnings st)
        end)%nat.
Proof.
  intros final. subst final. rewrite print_report_run. simpl fst. simpl snd.
  split; [done|]. split; [done|]. split; [done|]. split; [done|].
  split.
  - intros m Hm. unfold report_lines, report_block.
    apply elem_of_app in Hm as [Hm|Hm].
    + destruct (issues st) as [|x l] eqn:Ei; [by apply elem_of_nil in Hm|].
      simpl nonempty. cbn [negb andb]. rewrite <- Ei in *. clear Ei.
      apply elem_of_app; right. apply elem_of_app; left.
      apply elem_of_cons; right. apply elem_of_app; left.
      by apply (list_elem_of_fmap_2 (fun m => "  " +:+ m)).
    + destruct (warnings st) as [|x l] eqn:Ew; [by apply elem_of_nil in Hm|].
      simpl nonempty. rewrite andb_false_r. rewrite <- Ew in *. clear Ew.
      apply elem_of_app; right. apply elem_of_app; right. apply elem_of_app; left.
      apply elem_of_cons; right. apply elem_of_app; left.
      by apply (list_elem_of_fmap_2 (fun m => "  " +:+ m)).
  - unfold report_lines, report_block.
    destruct (issues st) as [|x l], (warnings st) as [|y k]; simpl nonempty;
      cbn [negb andb]; rewrite ?length_app; simpl length;
      rewrite ?length_app, ?length_map; simpl length; lia.
Qed.

(** *** Loading *)

Lemma load_yaml_yields (filename : string) (file : loaded) :
  yields (_load_yaml filename file) (document_of file) (load_issue filename file) [].
Proof.
  destruct file as [document|error]; simpl.
  - apply yields_ret.
  - eapply yields_eq.
    + eapply yields_bind; [apply yields_issue|apply yields_ret].
    + done.
    + done.
Qed.

Lemma init_yields (base : files) :
  yields (__init__ base) (bundle_of_files base) (load_issues base) [].
Proof.
  unfold __init__, load_issues. eapply yields_eq.
  - eapply yields_bind; [apply load_yaml_yields|].
    eapply yields_bind; [apply load_yaml_yields|].
    eapply yields_bind; [apply load_yaml_yields|].
    eapply yields_bind; [apply load_yaml_yields|].
    eapply yields_bind; [apply load_yaml_yields|].
    apply yields_ret.
  - by rewrite app_nil_r.
  - done.
Qed.

Lemma load_yaml_run (filename : string) (file : loaded) (st : auditor) :
  _load_yaml filename file st
  = (Ok (document_of file), extend st (load_issue filename file) [] []).
Proof.
  destruct file as [document|error]; simpl.
  - by rewrite extend_nil.
  - rewrite bind_run. simpl. unfold extend. simpl. by rewrite !app_nil_r.
Qed.

Lemma init_run (base : files) (st : auditor) :
  __init__ base st
  = (Ok (bundle_of_files base),
     {| issues := issues st ++ load_issues base;
        warnings := warnings st; stdout := stdout st |}).
Proof.
  unfold __init__.
  do 5 (rewrite bind_run, load_yaml_run; cbv iota beta).
  rewrite !extend_extend. unfold extend, load_issues, bundle_of_files. simpl.
  by rewrite !app_nil_r.
Qed.


Lemma script_run (base : files) :
  script base
  = audit_all (bundle_of_files base)
      {| issues := load_issues base; warnings := []; stdout := [] |}.
Proof. unfold script. by rewrite bind_run, init_run. Qed.

(** X5. When any of the five files cannot be loaded the script ends with
    exit status 1, whatever the other files hold and whether or not the
    rules return; this also holds for [fertilizers.yaml], which no rule
    reads. *)
Theorem failed_load_fails_audit (base : files) :
  load_issues base <> [] -> exit_status (fst (script base)) = 1.
Proof.
  intros Hfailed. rewrite script_run.
  destruct (audit_exit_cases (bundle_of_files base)
              {| issues := load_issues base; warnings := []; stdout := [] |})
    as ([H0|H1] & _ & Hzero); [|done].
  by destruct Hfailed; apply Hzero.
Qed.

(** *** Commands that raise *)

Lemma fails_lift {A} (r : res A) (e : exn) : r = Raise e -> fails (lift r) e [] [].
Proof. intros -> st; exists []; by rewrite extend_nil. Qed.

Lemma fails_bind {A B} (m : M A) (k : A -> M B) e i w :
  fails m e i w -> fails (m ≫= k) e i w.
Proof. intros H st. destruct (H st) as [o E]. exists o. by rewrite bind_run, E. Qed.

Lemma yields_then_fails {A B} (m : M A) (k : A -> M B) a e i1 w1 i2 w2 :
  yields m a i1 w1 -> fails (k a) e i2 w2 ->
  fails (m ≫= k) e (i1 ++ i2) (w1 ++ w2).
Proof.
  intros Hm Hk st. destruct (Hm st) as [o1 E1].
  destruct (Hk (extend st i1 w1 o1)) as [o2 E2].
  exists (o1 ++ o2). by rewrite bind_run, E1, E2, extend_extend.
Qed.

Lemma fails_eq {A} (m : M A) e i w i' w' :
  fails m e i w -> i = i' -> w = w' -> fails m e i' w'.
Proof. by intros H <- <-. Qed.


Lemma fails_run {A} (m : M A) e i w st :
  fails m e i w ->
  exists st', m st = (Raise e, st') /\ issues st' = issues st ++ i
              /\ warnings st' = warnings st ++ w.
Proof. intros H. destruct (H st) as [o E]. by exists (extend st i w o). Qed.

(** *** check_plant_soil_references, whole *)




Lemma when_true (body : M unit) : when true body = body.
Proof. reflexivity. Qed.










(** *** check_soil_component_references, whole *)

Lemma add_component_names_run (items : list (string * value)) (acc : gset hkey) :
  Forall (fun kv => component_ready (snd kv) = true) items ->
  add_component_names acc items
  = Ok (acc ∪ list_to_set (KStr <$> component_names items)).
Proof.
  intros Hr. revert acc.
  induction Hr as [|[comp_id comp_data] r Hc _ IH]; intros acc.
  - simpl. by rewrite (right_id_L ∅ (∪)).
  - simpl in Hc. unfold component_ready in Hc.
    unfold component_names. simpl omap. unfold component_name at 1. simpl snd.
    cbn [add_component_names].
    destruct (py_get comp_data "name" (VStr "")) as [comp_name|e]; [|done].
    cbn [res_bind mbind].
    destruct comp_name as [| flag | z | text | l | d];
      try (apply negb_true_iff in Hc; rewrite Hc; apply IH).
    cbn [truthy]. destruct (String.eqb text ""); cbn [negb].
    + apply IH.
    + simpl. rewrite IH. f_equal. by rewrite <- (assoc_L (∪)).
Qed.

Lemma collect_components_run (data : value) (basic additional : list (string * value)) :
  py_get data "basic_substrates" (VDict []) = Ok (VDict basic) ->
  py_get data "additional_components" (VDict []) = Ok (VDict additional) ->
  Forall (fun kv => component_ready (snd kv) = true) (basic ++ additional) ->
  collect_components data ∅ ["basic_substrates"; "additional_components"]
  = Ok (list_to_set (KStr <$> component_names (basic ++ additional))).
Proof.
  intros Hb Ha Hr. apply Forall_app in Hr as [Hrb Hra].
  simpl. rewrite Hb. simpl. rewrite (add_component_names_run _ _ Hrb). simpl.
  rewrite Ha. simpl. rewrite (add_component_names_run _ _ Hra). simpl.
  f_equal. unfold component_names. rewrite omap_app, fmap_app, list_to_set_app_L.
  by rewrite (left_id_L ∅ (∪)).
Qed.

Lemma any_component_strings (comp : string) (names : list string) :
  any_component comp (KStr <$> names) = Ok (component_found comp names).
Proof.
  induction names as [|vc r IH]; [done|]. simpl.
  by destruct (str_contains (str_lower comp) (str_lower vc)).
Qed.

Lemma component_found_spec (comp : string) (names : list string) :
  component_found comp names = true <->
  exists vc, vc ∈ names /\ str_contains (str_lower comp) (str_lower vc) = true.
Proof.
  unfold component_found. rewrite existsb_exists.
  split; intros (vc & H1 & H2); exists vc; split; try done.
  - by apply list_elem_of_In.
  - by apply list_elem_of_In.
Qed.

Lemma any_component_set (comp : string) (names : list string) :
  any_component comp (elements (list_to_set (KStr <$> names) : gset hkey))
  = Ok (component_found comp names).
Proof.
  set (members := elements (list_to_set (KStr <$> names) : gset hkey)).
  assert (Hm : forall h, h ∈ members <-> exists vc, vc ∈ names /\ h = KStr vc).
  { intros h. unfold members. rewrite elem_of_elements, elem_of_list_to_set,
      list_elem_of_fmap. split; intros (vc & H1 & H2); exists vc; by split. }
  assert (Hs : members = KStr <$> omap (fun h => match h with KStr s => Some s | _ => None end)
                                    members).
  { assert (Hall : Forall (fun h => exists vc, h = KStr vc) members).
    { apply Forall_forall. intros h Hin. apply Hm in Hin as (vc & _ & ->). by exists vc. }
    clear Hm. induction Hall as [|h r [vc ->] _ IH]; [done|]. simpl. f_equal. exact IH. }
  rewrite Hs, any_component_strings. f_equal.
  apply eq_true_iff_eq. rewrite !component_found_spec.
  split; intros (vc & Hin & Hc); exists vc; split; try done.
  - assert (KStr vc ∈ members) as Hk.
    { rewrite Hs. apply list_elem_of_fmap. by exists vc. }
    apply Hm in Hk as (vc' & Hin' & [= ->]). done.
  - apply list_elem_of_omap. exists (KStr vc). split; [|done].
    apply Hm. by exists vc.
Qed.

Lemma check_soil_component_yields (b : bundle) (data : value)
    (basic additional : list (string * value)) :
  py_get (components b) "soil_components" (VDict []) = Ok data ->
  py_get data "basic_substrates" (VDict []) = Ok (VDict basic) ->
  py_get data "additional_components" (VDict []) = Ok (VDict additional) ->
  Forall (fun kv => component_ready (snd kv) = true) (basic ++ additional) ->
  yields (check_soil_component_references b) tt []
    (concat (map (spec_component_warning (component_names (basic ++ additional)))
               expected_components)).
Proof.
  intros Hd Hb Ha Hr. unfold check_soil_component_references.
  eapply yields_eq.
  - eapply yields_bind; [apply yields_print|].
    eapply yields_bind; [apply yields_lift, Hd|].
    eapply yields_bind; [apply yields_lift, (collect_components_run _ _ _ Hb Ha Hr)|].
    eapply yields_bind; [|apply yields_print].
    apply (yields_for_each _ (fun _ => [])
             (spec_component_warning (component_names (basic ++ additional)))).
    intros comp _. eapply yields_eq.
    + eapply yields_bind; [apply yields_lift, any_component_set|].
      apply yields_when_warning.
    + done.
    + unfold spec_component_warning.
      by destruct (component_found comp (component_names (basic ++ additional))).
  - reflexivity.
  - simpl. by rewrite ?app_nil_r.
Qed.

(** X9. On components that are mappings whose names are strings (or
    falsy), the soil-component rule returns, adds no Issue, and adds one
    Warning for each of the seven expected components, in their order, that
    no component name contains when both are put in lower case: a name
    need not be equal to the expected one, and one name can cover several
    expected components. Only the non-empty names of the two categories
    [basic_substrates] and [additional_components] count. *)
Theorem soil_component_warnings (b : bundle) (data : value)
    (basic additional : list (string * value)) (st : auditor) :
  py_get (components b) "soil_components" (VDict []) = Ok data ->
  py_get data "basic_substrates" (VDict []) = Ok (VDict basic) ->
  py_get data "additional_components" (VDict []) = Ok (VDict additional) ->
  Forall (fun kv => component_ready (snd kv) = true) (basic ++ additional) ->
  (exists st',
      check_soil_component_references b st = (Ok tt, st')
      /\ issues st' = issues st
      /\ warnings st' = warnings st
           ++ concat (map (spec_component_warning (component_names (basic ++ additional)))
                        expected_components))
  /\ (forall comp,
        (spec_component_warning (component_names (basic ++ additional)) comp = [] <->
         exists vc, vc ∈ component_names (basic ++ additional)
                    /\ str_contains (str_lower comp) (str_lower vc) = true)
        /\ (spec_component_warning (component_names (basic ++ additional)) comp <> [] ->
            spec_component_warning (component_names (basic ++ additional)) comp
            = [msg_missing_component comp]))
  /\ (forall vc,
        vc ∈ component_names (basic ++ additional) <->
        vc <> "" /\ exists kv, kv ∈ basic ++ additional
                               /\ py_get (snd kv) "name" (VStr "") = Ok (VStr vc)).
Proof.
  intros Hd Hb Ha Hr. split; [|split].
  - destruct (yields_run _ _ _ _ st (check_soil_component_yields b data basic additional
                                       Hd Hb Ha Hr)) as (st' & E & Hi & Hw).
    exists st'. by rewrite app_nil_r in Hi.
  - intros comp. unfold spec_component_warning.
    destruct (component_found comp _) eqn:Ef.
    + split; [|done]. split; [|done]. intros _. by apply component_found_spec.
    + split; [|done]. split; [done|]. intros H.
      apply component_found_spec in H. congruence.
  - intros vc. unfold component_names. rewrite list_elem_of_omap. split.
    + intros ([comp_id comp_data] & Hin & Hn). unfold component_name in Hn. simpl in Hn.
      destruct (py_get comp_data "name" (VStr "")) as [[| | |text| |]|] eqn:Eg; try done.
      destruct (String.eqb_spec text ""); [done|]. injection Hn as <-.
      split; [done|]. by exists (comp_id, comp_data).
    + intros (Hne & [comp_id comp_data] & Hin & Hn). exists (comp_id, comp_data).
      split; [done|]. unfold component_name. simpl in *. rewrite Hn.
      by destruct (String.eqb_spec vc "").
Qed.

(** *** The range sub-checks on the text of a range *)

Lemma split_on_cons (sep : ascii) (p s : string) :
  str_contains (String sep "") p = false ->
  split_on sep (p +:+ String sep s) = p :: split_on sep s.
Proof.
  induction p as [|c p IH]; simpl.
  - intros _. by rewrite Ascii.eqb_refl.
  - destruct (ascii_dec sep c) as [->|Hne].
    + by destruct p.
    + intros H. destruct (Ascii.eqb_spec c sep) as [->|_]; [done|].
      rewrite IH; [done|]. destruct p; simpl in *; [done|]. exact H.
Qed.

Lemma split_on_more (sep : ascii) (p s : string) :
  (1 + length (split_on sep s) <= length (split_on sep (p +:+ String sep s)))%nat.
Proof.
  induction p as [|c p IH]; simpl.
  - rewrite Ascii.eqb_refl. simpl. lia.
  - destruct (Ascii.eqb c sep); simpl; [lia|].
    destruct (split_on sep (p +:+ String sep s)); simpl in *; lia.
Qed.

Lemma str_contains_sep (sep : ascii) (p s : string) :
  str_contains (String sep "") (p +:+ String sep s) = true.
Proof.
  induction p as [|c p IH]; simpl.
  - destruct (ascii_dec sep sep); [|done]. by destruct s.
  - rewrite IH. apply orb_true_r.
Qed.

Lemma sep_not_empty (sep : ascii) (p s : string) : p +:+ String sep s <> "".
Proof. by destruct p. Qed.

Lemma unpack_pair_many {A} (conv : string -> option A) (tokens : list string) :
  (3 <= length tokens)%nat -> unpack_pair conv tokens = Raise ValueError.
Proof. destruct tokens as [|a [|b' [|c r]]]; simpl; try lia. done. Qed.

Lemma ppm_findings_pair (plant_id lo_text hi_text : string) :
  str_contains "-" lo_text = false -> str_contains "-" hi_text = false ->
  ppm_findings plant_id (VStr (lo_text +:+ "-" +:+ hi_text))
  = match py_int lo_text, py_int hi_text with
    | Some lo, Some hi =>
        (if hi <=? lo then [msg_ppm_reversed plant_id (lo_text +:+ "-" +:+ hi_text)] else [],
         if (lo <? 0) || (500 <? hi)
         then [msg_ppm_unusual plant_id (lo_text +:+ "-" +:+ hi_text)] else [])
    | _, _ => ([], [msg_ppm_unparsed plant_id (lo_text +:+ "-" +:+ hi_text)])
    end.
Proof.
  intros Hlo Hhi. unfold ppm_findings. cbn [py_str]. rewrite truthy_str.
  change ("-" +:+ hi_text) with (String "-" hi_text).
  rewrite bool_decide_eq_true_2 by apply sep_not_empty.
  rewrite (str_contains_sep "-"). cbn [andb].
  rewrite (split_on_cons "-" _ _ Hlo), (split_on_absent "-" _ Hhi).
  unfold unpack_pair.
  destruct (py_int lo_text) as [lo|]; [|done].
  destruct (py_int hi_text) as [hi|]; [|done].
  by rewrite Z.geb_leb, Z.gtb_ltb.
Qed.

Lemma ph_findings_pair (plant_id lo_text hi_text : string) :
  str_contains "-" lo_text = false -> str_contains "-" hi_text = false ->
  ph_findings plant_id (VStr (lo_text +:+ "-" +:+ hi_text))
  = match py_float lo_text, py_float hi_text with
    | Some lo, Some hi =>
        (if float_leb hi lo then [msg_ph_reversed plant_id (lo_text +:+ "-" +:+ hi_text)]
         else [],
         if float_ltb lo (float_of_Z 4) || float_ltb (float_of_Z 8) hi
         then [msg_ph_unusual plant_id (lo_text +:+ "-" +:+ hi_text)] else [])
    | _, _ => ([], [msg_ph_unparsed plant_id (lo_text +:+ "-" +:+ hi_text)])
    end.
Proof.
  intros Hlo Hhi. unfold ph_findings. cbn [py_str]. rewrite truthy_str.
  change ("-" +:+ hi_text) with (String "-" hi_text).
  rewrite bool_decide_eq_true_2 by apply sep_not_empty.
  rewrite (str_contains_sep "-"). cbn [andb].
  rewrite (split_on_cons "-" _ _ Hlo), (split_on_absent "-" _ Hhi).
  unfold unpack_pair.
  destruct (py_float lo_text) as [lo|]; [|done].
  by destruct (py_float hi_text) as [hi|].
Qed.

(** X10. A ppm range and a pH range written as two texts without hyphen
    joined by one hyphen. When [int] (for ppm) or [float] (for pH) reads
    both, the sub-check adds the Issue exactly when [min >= max] holds and
    the Warning exactly when [min < 0 or max > 500] (ppm) or
    [min < 4.0 or max > 8.0] (pH) holds, as Python compares the two numbers:
    equal bounds are an Issue and the limits themselves are usual. For ppm
    the Issue thus says that the upper bound is not above the lower one;
    for pH this fails for a bound that [float] reads as NaN, which is in no
    order with any number: such a range gets no Issue, and a NaN bound
    never makes the range unusual. When one of the two texts is not read,
    the sub-check adds the one cannot-parse Warning and no Issue. *)
Theorem range_text_classified (plant_id lo_text hi_text : string) :
  str_contains "-" lo_text = false -> str_contains "-" hi_text = false ->
  let text := lo_text +:+ "-" +:+ hi_text in
  yields (ppm_check plant_id (VStr text)) tt
    (match py_int lo_text, py_int hi_text with
     | Some lo, Some hi => if hi <=? lo then [msg_ppm_reversed plant_id text] else []
     | _, _ => []
     end)
    (match py_int lo_text, py_int hi_text with
     | Some lo, Some hi =>
         if (lo <? 0) || (500 <? hi) then [msg_ppm_unusual plant_id text] else []
     | _, _ => [msg_ppm_unparsed plant_id text]
     end)
  /\ yields (ph_check plant_id (VStr text)) tt
       (match py_float lo_text, py_float hi_text with
        | Some lo, Some hi => if float_leb hi lo then [msg_ph_reversed plant_id text] else []
        | _, _ => []
        end)
       (match py_float lo_text, py_float hi_text with
        | Some lo, Some hi =>
            if float_ltb lo (float_of_Z 4) || float_ltb (float_of_Z 8) hi
            then [msg_ph_unusual plant_id text] else []
        | _, _ => [msg_ph_unparsed plant_id text]
        end)
  /\ (forall lo hi : pyfloat,
        is_nan lo = true \/ is_nan hi = true -> float_leb hi lo = false)
  /\ (forall x : pyfloat,
        is_nan x = true ->
        float_ltb x (float_of_Z 4) = false /\ float_ltb (float_of_Z 8) x = false)
  /\ (forall lo hi : pyfloat,
        py_float lo_text = Some lo -> py_float hi_text = Some hi ->
        is_nan lo = true \/ is_nan hi = true ->
        yields (ph_check plant_id (VStr text)) tt []
          (if float_ltb lo (float_of_Z 4) || float_ltb (float_of_Z 8) hi
           then [msg_ph_unusual plant_id text] else [])).
Proof.
  intros Hlo Hhi text.
  assert (Hnan : forall lo hi : pyfloat,
            is_nan lo = true \/ is_nan hi = true -> float_leb hi lo = false).
  { intros lo hi [H|H].
    - destruct lo; try discriminate H. by destruct hi.
    - by destruct hi. }
  assert (Hph : yields (ph_check plant_id (VStr text)) tt
       (match py_float lo_text, py_float hi_text with
        | Some lo, Some hi => if float_leb hi lo then [msg_ph_reversed plant_id text] else []
        | _, _ => []
        end)
       (match py_float lo_text, py_float hi_text with
        | Some lo, Some hi =>
            if float_ltb lo (float_of_Z 4) || float_ltb (float_of_Z 8) hi
            then [msg_ph_unusual plant_id text] else []
        | _, _ => [msg_ph_unparsed plant_id text]
        end)).
  { eapply yields_eq; [apply ph_check_yields| |];
      unfold text; rewrite (ph_findings_pair _ _ _ Hlo Hhi);
      by destruct (py_float lo_text), (py_float hi_text). }
  split; [|split; [exact Hph|split; [exact Hnan|split]]].
  - eapply yields_eq; [apply ppm_check_yields| |];
      unfold text; rewrite (ppm_findings_pair _ _ _ Hlo Hhi);
      by destruct (py_int lo_text), (py_int hi_text).
  - intros x H. destruct x; try discriminate H. split; reflexivity.
  - intros lo hi El Eh H. rewrite El, Eh, (Hnan lo hi H) in Hph. exact Hph.
Qed.

(** X11. A range text with two hyphens or more is never read as a range:
    whatever stands around the hyphens, each sub-check adds its one
    cannot-parse Warning and no Issue, without calling for the bounds. So a
    range whose lower bound is written with a minus sign, such as -5-10, is
    reported as unparsable, not as unusual. *)
Theorem range_with_two_hyphens (plant_id a b' c : string) :
  let text := a +:+ "-" +:+ b' +:+ "-" +:+ c in
  yields (ppm_check plant_id (VStr text)) tt [] [msg_ppm_unparsed plant_id text]
  /\ yields (ph_check plant_id (VStr text)) tt [] [msg_ph_unparsed plant_id text].
Proof.
  intros text.
  assert (Ht : truthy (VStr text) && str_contains "-" (py_str (VStr text)) = true).
  { unfold text. cbn [py_str]. rewrite truthy_str.
    change ("-" +:+ b' +:+ "-" +:+ c) with (String "-" (b' +:+ "-" +:+ c)).
    rewrite bool_decide_eq_true_2 by apply sep_not_empty.
    by rewrite (str_contains_sep "-"). }
  assert (Hl : (3 <= length (split_on "-" (py_str (VStr text))))%nat).
  { unfold text. cbn [py_str].
    change ("-" +:+ b' +:+ "-" +:+ c) with (String "-" (b' +:+ String "-" c)).
    pose proof (split_on_more "-" a (b' +:+ String "-" c)).
    pose proof (split_on_more "-" b' c). pose proof (split_on_length "-" c). lia. }
  split.
  - eapply yields_eq; [apply ppm_check_yields| |];
      unfold ppm_findings; rewrite Ht, (unpack_pair_many _ _ Hl); done.
  - eapply yields_eq; [apply ph_check_yields| |];
      unfold ph_findings; rewrite Ht, (unpack_pair_many _ _ Hl); done.
Qed.

(** *** check_duplicates_and_conflicts: how many Warnings *)

Lemma spec_duplicate_cases (earlier : list (string * value)) plant_id plant_data :
  (name_key plant_data ∈ name_keys earlier
   /\ length (spec_duplicate earlier plant_id plant_data) = 1%nat)
  \/ ((name_key plant_data ∉ name_keys earlier)
      /\ spec_duplicate earlier plant_id plant_data = []).
Proof.
  unfold spec_duplicate.
  destruct (List.find (same_name plant_data) earlier) as [[first_id first_data]|] eqn:Ef.
  - left. split; [|done]. apply find_some in Ef as [Hin Hs].
    apply bool_decide_eq_true in Hs. simpl in Hs. rewrite <- Hs.
    unfold name_keys. apply list_elem_of_fmap. exists (first_id, first_data).
    split; [done|]. by apply list_elem_of_In.
  - right. split; [|done]. intros Hin. unfold name_keys in Hin.
    apply list_elem_of_fmap in Hin as (entry & Hk & Hin).
    apply find_none in Ef. rewrite Forall_forall in Ef. specialize (Ef _ Hin).
    apply bool_decide_eq_false in Ef. by symmetry in Hk.
Qed.

Lemma name_keys_snoc (earlier : list (string * value)) (entry : string * value) :
  name_keys (earlier ++ [entry]) = name_keys earlier ++ [name_key (snd entry)].
Proof. unfold name_keys. by rewrite map_app. Qed.

Lemma spec_duplicates_count (earlier items : list (string * value)) :
  (length (spec_duplicates earlier items)
   + size (list_to_set (name_keys (earlier ++ items)) : gset hkey)
   = length items + size (list_to_set (name_keys earlier) : gset hkey))%nat.
Proof.
  revert earlier. induction items as [|[plant_id plant_data] r IH]; intros earlier.
  - simpl. by rewrite app_nil_r.
  - cbn [spec_duplicates]. rewrite length_app.
    specialize (IH (earlier ++ [(plant_id, plant_data)])).
    rewrite <- app_assoc in IH. cbn [app] in IH.
    rewrite name_keys_snoc, list_to_set_snoc_L in IH. cbn [snd] in IH.
    set (filed := list_to_set (name_keys earlier) : gset hkey) in *.
    assert (Hfiled : forall k, k ∈ filed <-> k ∈ name_keys earlier).
    { intros k. unfold filed. by rewrite elem_of_list_to_set. }
    destruct (spec_duplicate_cases earlier plant_id plant_data) as [[Hin Hl]|[Hin Hl]].
    + rewrite Hl.
      assert (E : filed ∪ {[name_key plant_data]} = filed).
      { apply set_eq. intros k. rewrite elem_of_union, elem_of_singleton.
        split; [|by left]. intros [H| ->]; [done|]. by apply Hfiled. }
      rewrite E in IH. cbn [length]. lia.
    + rewrite Hl.
      assert (E : size (filed ∪ {[name_key plant_data]}) = S (size filed)).
      { rewrite size_union.
        - rewrite size_singleton. lia.
        - intros k H1 H2. apply elem_of_singleton in H2 as ->. by apply Hin, Hfiled. }
      rewrite E in IH. cbn [length] in *. lia.
Qed.

Lemma spec_duplicates_silent (earlier items : list (string * value)) :
  spec_duplicates earlier items = [] <->
  NoDup (name_keys items) /\ Forall (fun k => k ∉ name_keys earlier) (name_keys items).
Proof.
  revert earlier. induction items as [|[plant_id plant_data] r IH]; intros earlier.
  - simpl. split; [|done]. intros _. split; constructor.
  - cbn [spec_duplicates]. unfold name_keys at 1 3. cbn [map snd].
    fold (name_keys r). rewrite NoDup_cons, Forall_cons.
    specialize (IH (earlier ++ [(plant_id, plant_data)])).
    rewrite name_keys_snoc in IH. cbn [snd] in IH.
    assert (Hr : Forall (fun k => k ∉ name_keys earlier ++ [name_key plant_data]) (name_keys r)
                 <-> (name_key plant_data ∉ name_keys r)
                     /\ Forall (fun k => k ∉ name_keys earlier) (name_keys r)).
    { rewrite !Forall_forall. split.
      - intros H. split.
        + intros Hin. apply (H _ Hin). apply elem_of_app. right. by left.
        + intros k Hin Hk. apply (H _ Hin). apply elem_of_app. by left.
      - intros [H1 H2] k Hin Hk. apply elem_of_app in Hk as [Hk|Hk].
        + by apply (H2 _ Hin).
        + apply list_elem_of_singleton in Hk as ->. done. }
    destruct (spec_duplicate_cases earlier plant_id plant_data) as [[Hin Hl]|[Hin Hl]].
    + split.
      * intros H. apply app_eq_nil in H as [H _]. rewrite H in Hl. done.
      * intros [_ [H _]]. done.
    + rewrite Hl. cbn [app]. rewrite IH, Hr. tauto.
Qed.

(** X12. On plants that are mappings with hashable names, the
    duplicate-name rule adds as many Warnings as there are plants beyond
    the distinct names: the number of plants less the number of distinct
    names. It adds none exactly when the names are pairwise different.
    Names are the same when they are equal as Python values, so two plants
    without a name share the name that is the empty string. *)
Theorem duplicate_warnings_count (b : bundle) (P : list (string * value))
    (st : auditor) :
  plants_of b = Ok (VDict P) ->
  Forall (fun kv => named (snd kv) = true) P ->
  exists st',
    check_duplicates_and_conflicts b st = (Ok tt, st')
    /\ (length (warnings st') + size (list_to_set (name_keys P) : gset hkey)
        = length (warnings st) + length P)%nat
    /\ (warnings st' = warnings st <-> NoDup (name_keys P))
    /\ (forall plant_data,
          py_get plant_data "name" (VStr "") = Ok (VStr "")
          \/ (exists entry, plant_data = VDict entry /\ assoc_get "name" entry = None) ->
          name_key plant_data = KStr "").
Proof.
  intros HP Hn.
  assert (Hy : yields (check_duplicates_and_conflicts b) tt [] (spec_duplicates [] P)).
  { unfold check_duplicates_and_conflicts. eapply yields_eq.
    - eapply yields_bind; [apply yields_print|].
      eapply yields_bind; [apply yields_lift, HP|].
      eapply yields_bind; [by apply yields_lift|].
      eapply yields_bind; [|apply yields_print].
      apply (duplicates_loop_yields P [] ∅ Hn). intros d. by rewrite lookup_empty.
    - done.
    - simpl. by rewrite app_nil_r. }
  destruct (yields_run _ _ _ _ st Hy) as (st' & E & Hi & Hw).
  exists st'. split; [exact E|]. split; [|split].
  - rewrite Hw, length_app. pose proof (spec_duplicates_count [] P) as Hc.
    assert (H0 : size (list_to_set (name_keys []) : gset hkey) = 0%nat) by apply size_empty.
    cbn [app] in Hc. lia.
  - rewrite Hw. split.
    + intros H.
      assert (Hnil : spec_duplicates [] P = []).
      { apply (app_inv_head (warnings st)). by rewrite app_nil_r. }
      by apply spec_duplicates_silent in Hnil as [Hnil _].
    + intros H. rewrite (proj2 (spec_duplicates_silent [] P)).
      * by rewrite app_nil_r.
      * split; [done|]. apply Forall_forall. intros k _ Hk. by apply elem_of_nil in Hk.
  - intros plant_data [Hg|(entry & -> & Ha)]; unfold name_key, name_of.
    + by rewrite Hg.
    + simpl. by rewrite Ha.
Qed.

(** *** check_wick_watering_consistency: a method that is no text *)

Lemma wick_step_null plant_id plant_data method :
  recommended_of plant_data = Ok VNone -> method_of plant_data = Ok method ->
  yields (wick_step plant_id plant_data) tt [] [].
Proof.
  intros Hr Hm. destruct (wick_views_inv _ _ _ Hr Hm) as (wick & watering & H1 & H2 & H3 & H4).
  unfold wick_step. eapply yields_eq.
  - eapply yields_bind; [apply yields_lift, H1|].
    eapply yields_bind; [apply yields_lift, H2|].
    eapply yields_bind; [apply yields_lift, H3|].
    eapply yields_bind; [apply yields_lift, H4|].
    cbn [truthy is_none negb andb].
    eapply yields_bind; [by apply yields_lift|].
    eapply yields_bind; [apply (yields_ret tt)|]. apply (yields_ret tt).
  - done.
  - done.
Qed.

Lemma wick_step_raises plant_id plant_data recommended method e :
  recommended_of plant_data = Ok recommended -> method_of plant_data = Ok method ->
  is_none recommended = false ->
  lacks_wick_keyword method = Raise e -> has_wick_keyword method = Raise e ->
  fails (wick_step plant_id plant_data) e [] [].
Proof.
  intros Hr Hm Hnone Hl Hh.
  destruct (wick_views_inv _ _ _ Hr Hm) as (wick & watering & H1 & H2 & H3 & H4).
  unfold wick_step. destruct (truthy recommended) eqn:Et.
  - eapply fails_eq.
    + eapply yields_then_fails; [apply yields_lift, H1|].
      eapply yields_then_fails; [apply yields_lift, H2|].
      eapply yields_then_fails; [apply yields_lift, H3|].
      eapply yields_then_fails; [apply yields_lift, H4|].
      rewrite Et. apply fails_bind. by apply fails_lift.
    + done.
    + done.
  - eapply fails_eq.
    + eapply yields_then_fails; [apply yields_lift, H1|].
      eapply yields_then_fails; [apply yields_lift, H2|].
      eapply yields_then_fails; [apply yields_lift, H3|].
      eapply yields_then_fails; [apply yields_lift, H4|].
      rewrite Et, Hnone. cbn [negb andb].
      eapply yields_then_fails; [by apply yields_lift|].
      eapply yields_then_fails; [apply (yields_ret tt)|].
      rewrite when_true. apply fails_bind. by apply fails_lift.
    + done.
    + done.
Qed.

Lemma wick_step_items plant_id plant_data recommended method (manual : bool) :
  recommended_of plant_data = Ok recommended -> method_of plant_data = Ok method ->
  is_none recommended = false ->
  py_in "Фитиль" method = Ok true -> py_in "Ручной" method = Ok manual ->
  yields (wick_step plant_id plant_data) tt []
    (if truthy recommended || manual then [] else [msg_wick_unexpected plant_id]).
Proof.
  intros Hr Hm Hnone Hw Hmanual.
  destruct (wick_views_inv _ _ _ Hr Hm) as (wick & watering & H1 & H2 & H3 & H4).
  assert (Hl : lacks_wick_keyword method = Ok false).
  { unfold lacks_wick_keyword. by rewrite Hw. }
  assert (Hh : has_wick_keyword method = Ok true).
  { unfold has_wick_keyword. by rewrite Hw. }
  assert (Hk : lacks_manual_keyword method = Ok (negb manual)).
  { unfold lacks_manual_keyword. by rewrite Hmanual. }
  unfold wick_step. destruct (truthy recommended) eqn:Et.
  - eapply yields_eq.
    + eapply yields_bind; [apply yields_lift, H1|].
      eapply yields_bind; [apply yields_lift, H2|].
      eapply yields_bind; [apply yields_lift, H3|].
      eapply yields_bind; [apply yields_lift, H4|].
      rewrite Et. cbn [negb andb].
      eapply yields_bind; [apply yields_lift, Hl|].
      eapply yields_bind; [apply (yields_ret tt)|]. apply (yields_ret tt).
    + done.
    + done.
  - eapply yields_eq.
    + eapply yields_bind; [apply yields_lift, H1|].
      eapply yields_bind; [apply yields_lift, H2|].
      eapply yields_bind; [apply yields_lift, H3|].
      eapply yields_bind; [apply yields_lift, H4|].
      rewrite Et, Hnone. cbn [negb andb].
      eapply yields_bind; [by apply yields_lift|].
      eapply yields_bind; [apply (yields_ret tt)|].
      rewrite when_true.
      eapply yields_bind; [apply yields_lift, Hh|].
      rewrite when_true.
      eapply yields_bind; [apply yields_lift, Hk|].
      apply yields_when_warning.
    + done.
    + cbn [orb app]. by destruct manual.
Qed.

(** X13. The wick rule on a plant whose watering method is no text. When
    the flag [recommended] is null the method is never looked into and the
    plant adds nothing, whatever the method is. Otherwise a method that is
    null, a boolean or a number raises [TypeError]; a list or a mapping
    that does not hold the item (or key) Фитиль raises [AttributeError];
    and one that holds it raises nothing: the plant then adds the one
    Warning of an unexpected wick exactly when the flag is falsy and the
    list or mapping does not hold the item Ручной. In no case is a finding
    added before the exception. *)
Theorem wick_method_not_text (plant_id : string) (plant_data recommended method : value) :
  recommended_of plant_data = Ok recommended ->
  method_of plant_data = Ok method ->
  (is_none recommended = true -> yields (wick_step plant_id plant_data) tt [] [])
  /\ ((forall text, method <> VStr text) -> is_none recommended = false ->
      match py_in "Фитиль" method, py_in "Ручной" method with
      | Ok true, Ok manual =>
          yields (wick_step plant_id plant_data) tt []
            (if truthy recommended || manual then [] else [msg_wick_unexpected plant_id])
      | Ok false, _ => fails (wick_step plant_id plant_data) AttributeError [] []
      | _, _ => fails (wick_step plant_id plant_data) TypeError [] []
      end)
  /\ (match method with
      | VNone | VBool _ | VInt _ => py_in "Фитиль" method = Raise TypeError
      | VList items => py_in "Фитиль" method = Ok (existsb (py_eq (VStr "Фитиль")) items)
      | VDict entries =>
          py_in "Фитиль" method = Ok (existsb (fun kv => String.eqb "Фитиль" (fst kv)) entries)
      | VStr text => py_in "Фитиль" method = Ok (str_contains "Фитиль" text)
      end).
Proof.
  intros Hr Hm. split; [|split].
  - intros Hnone. destruct recommended; try done. by apply (wick_step_null _ _ method).
  - intros Htext Hnone.
    destruct method as [| flag | z | text | items | entries].
    + by apply (wick_step_raises _ _ recommended VNone).
    + by apply (wick_step_raises _ _ recommended (VBool flag)).
    + by apply (wick_step_raises _ _ recommended (VInt z)).
    + by destruct (Htext text).
    + destruct (py_in "Фитиль" (VList items)) as [[|]|e] eqn:Ew; [| |done].
      * by apply (wick_step_items _ _ recommended (VList items)).
      * apply (wick_step_raises _ _ recommended (VList items)); try done.
        -- unfold lacks_wick_keyword. by rewrite Ew.
        -- unfold has_wick_keyword. by rewrite Ew.
    + destruct (py_in "Фитиль" (VDict entries)) as [[|]|e] eqn:Ew; [| |done].
      * by apply (wick_step_items _ _ recommended (VDict entries)).
      * apply (wick_step_raises _ _ recommended (VDict entries)); try done.
        -- unfold lacks_wick_keyword. by rewrite Ew.
        -- unfold has_wick_keyword. by rewrite Ew.
  - by destruct method.
Qed.

(** *** audit_all on documents of the expected shape *)




(** *** A document that is no mapping *)








(** *** fertilizers.yaml *)

(** X16. The content of [fertilizers.yaml] is never read: two base
    directories whose files differ in the document loaded from it only give
    the same run of the script, findings, output and exit status alike. *)
Theorem fertilizers_never_read (p s c w : loaded) (document document' : value) :
  script (mkFiles p s c (Loaded document) w) = script (mkFiles p s c (Loaded document') w).
Proof. rewrite !script_run. reflexivity. Qed.

(** *** check_duplicates_and_conflicts: a name that cannot be hashed *)

Lemma names_filed_step (plant_names : gmap hkey string) (earlier : list (string * value))
    (plant_id : string) (plant_data : value) :
  names_filed plant_names earlier ->
  names_filed
    (match plant_names !! name_key plant_data with
     | Some _ => plant_names
     | None => <[name_key plant_data := plant_id]> plant_names
     end)
    (earlier ++ [(plant_id, plant_data)]).
Proof.
  intros Hf. pose proof (Hf plant_data) as Hlook.
  destruct (List.find (same_name plant_data) earlier) as [[first_id first_data]|] eqn:Efind;
    simpl in Hlook; rewrite Hlook.
  - intros d. rewrite find_snoc, (Hf d).
    destruct (List.find (same_name d) earlier) as [[i x]|] eqn:Ed; [done|].
    unfold same_name at 1. simpl snd. case_bool_decide as Esame; [|done].
    exfalso. apply find_none in Ed.
    apply find_some in Efind as [Hin Hs]. apply list_elem_of_In in Hin.
    rewrite Forall_forall in Ed. specialize (Ed _ Hin).
    unfold same_name in Ed, Hs. simpl in Ed, Hs.
    apply bool_decide_eq_true in Hs. apply bool_decide_eq_false in Ed.
    congruence.
  - intros d. rewrite find_snoc.
    destruct (decide (name_key d = name_key plant_data)) as [Ed|Ed].
    + rewrite Ed, lookup_insert_eq.
      assert (Hnone : List.find (same_name d) earlier = None).
      { apply find_none. apply find_none in Efind.
        eapply Forall_impl; [exact Efind|]. intros x Hx. unfold same_name in *.
        apply bool_decide_eq_false in Hx. apply bool_decide_eq_false. congruence. }
      rewrite Hnone. unfold same_name. simpl snd.
      rewrite bool_decide_true by congruence. done.
    + rewrite lookup_insert_ne by done. rewrite (Hf d).
      destruct (List.find (same_name d) earlier) as [[i x]|]; [done|].
      unfold same_name. simpl snd. rewrite bool_decide_false by congruence. done.
Qed.

Lemma duplicates_loop_fails (before after earlier : list (string * value))
    (plant_names : gmap hkey string) (plant_id : string) (plant_data name : value) (e : exn) :
  Forall (fun kv => named (snd kv) = true) before ->
  names_filed plant_names earlier ->
  py_get plant_data "name" (VStr "") = Ok name ->
  py_hash name = Raise e ->
  fails (duplicates_loop plant_names (before ++ (plant_id, plant_data) :: after)) e
    [] (spec_duplicates earlier before).
Proof.
  intros Hbefore. revert earlier plant_names.
  induction Hbefore as [|[id data] r Hn _ IH]; intros earlier plant_names Hf Hg Hh.
  - cbn [app duplicates_loop spec_duplicates]. eapply fails_eq.
    + eapply yields_then_fails; [apply yields_lift, Hg|].
      apply fails_bind. by apply fails_lift.
    + done.
    + done.
  - cbn [app duplicates_loop spec_duplicates].
    simpl in Hn. apply andb_prop in Hn as [Hd Hk].
    destruct (py_get_dict data "name" (VStr "") Hd) as [name' En].
    assert (Hname : name_of data = name') by (unfold name_of; by rewrite En).
    rewrite Hname in Hk.
    destruct (py_hash name') as [key|e'] eqn:Ek; [|done].
    assert (Hkey : name_key data = key) by (unfold name_key; by rewrite Hname, Ek).
    pose proof (names_filed_step plant_names earlier id data Hf) as Hstep.
    pose proof (Hf data) as Hlook. rewrite Hkey in Hlook, Hstep.
    unfold spec_duplicate. rewrite Hname.
    destruct (List.find (same_name data) earlier) as [[first_id first_data]|] eqn:Efind;
      simpl in Hlook; rewrite Hlook in Hstep.
    + eapply fails_eq.
      * eapply yields_then_fails; [apply yields_lift, En|].
        eapply yields_then_fails; [apply yields_lift, Ek|].
        rewrite Hlook.
        eapply yields_then_fails; [apply yields_warning|].
        by apply (IH (earlier ++ [(id, data)])).
      * done.
      * done.
    + eapply fails_eq.
      * eapply yields_then_fails; [apply yields_lift, En|].
        eapply yields_then_fails; [apply yields_lift, Ek|].
        rewrite Hlook.
        by apply (IH (earlier ++ [(id, data)])).
      * done.
      * done.
Qed.

(** X17. A plant whose name cannot be a key of a dict (a list or a
    mapping) makes the duplicate-name rule raise [TypeError] when the loop
    reaches it: the Warnings of the plants before it are kept, the plants
    after it are not compared, and no Issue is added. *)
Theorem unhashable_name_raises (b : bundle) (before after : list (string * value))
    (plant_id : string) (plant_data : value) (st : auditor) :
  plants_of b = Ok (VDict (before ++ (plant_id, plant_data) :: after)) ->
  Forall (fun kv => named (snd kv) = true) before ->
  is_dict plant_data = true -> named plant_data = false ->
  (exists st',
      check_duplicates_and_conflicts b st = (Raise TypeError, st')
      /\ issues st' = issues st
      /\ warnings st' = warnings st ++ spec_duplicates [] before)
  /\ ((exists items, name_of plant_data = VList items)
      \/ (exists entries, name_of plant_data = VDict entries)).
Proof.
  intros HP Hbefore Hd Hn.
  destruct (py_get_dict plant_data "name" (VStr "") Hd) as [name En].
  assert (Hname : name_of plant_data = name) by (unfold name_of; by rewrite En).
  unfold named in Hn. rewrite Hd, Hname in Hn. simpl in Hn.
  assert (Hh : py_hash name = Raise TypeError).
  { destruct name; simpl in *; done. }
  assert (Hf : fails (check_duplicates_and_conflicts b) TypeError []
                 (spec_duplicates [] before)).
  { unfold check_duplicates_and_conflicts. eapply fails_eq.
    - eapply yields_then_fails; [apply yields_print|].
      eapply yields_then_fails; [apply yields_lift, HP|].
      eapply yields_then_fails; [by apply yields_lift|].
      apply fails_bind.
      apply (duplicates_loop_fails before after [] ∅ plant_id plant_data name TypeError
               Hbefore); [|done|done].
      intros d. by rewrite lookup_empty.
    - done.
    - done. }
  destruct (fails_run _ _ _ _ st Hf) as (st' & E & Hi & Hw).
  split.
  - exists st'. by rewrite app_nil_r in Hi.
  - rewrite Hname. destruct name; simpl in Hn; try done.
    + left. by eexists.
    + right. by eexists.
Qed.

End Coverage.

(** *** More scenarios *)

Lemma failed_load_fails_audit_witness :
  load_issues missing_fertilizers <> []
  /\ exit_status (fst (script missing_fertilizers)) = 1.
Proof.
  assert (H : load_issues missing_fertilizers <> []) by (vm_compute; discriminate).
  split; [exact H|]. exact (failed_load_fails_audit missing_fertilizers H).
Defined.



Lemma soil_component_warnings_witness :
  exists st',
    check_soil_component_references sample_components_bundle new_auditor = (Ok tt, st')
    /\ issues st' = []
    /\ warnings st' = map msg_missing_component
                        ["Универсальный грунт Premium"; "Кокосовый субстрат"; "Вермикулит";
                         "Смесь для орхидей"].
Proof.
  destruct (soil_component_warnings sample_components_bundle
              (VDict [("basic_substrates",
                       VDict [("coco_perlite", VDict [("name", VStr "Кокос-перлит (50/50)")]);
                              ("unnamed", VDict [("ph", VStr "6.0")])]);
                      ("additional_components",
                       VDict [("charcoal", VDict [("name", VStr "ДРЕВЕСНЫЙ УГОЛЬ")])])])
              [("coco_perlite", VDict [("name", VStr "Кокос-перлит (50/50)")]);
               ("unnamed", VDict [("ph", VStr "6.0")])]
              [("charcoal", VDict [("name", VStr "ДРЕВЕСНЫЙ УГОЛЬ")])]
              new_auditor eq_refl eq_refl eq_refl)
    as [(st' & E & Hi & Hw) _].
  - repeat constructor.
  - exists st'. split; [exact E|]. split; [exact Hi|].
    rewrite Hw. vm_compute. reflexivity.
Defined.

Lemma range_text_classified_witness :
  yields (ppm_check "p" (VStr "600-600")) tt
    [msg_ppm_reversed "p" "600-600"] [msg_ppm_unusual "p" "600-600"]
  /\ yields (ppm_check "p" (VStr "0-500")) tt [] []
  /\ yields (ppm_check "p" (VStr "low-500")) tt [] [msg_ppm_unparsed "p" "low-500"]
  /\ yields (ph_check "p" (VStr "4.0-8.0")) tt [] []
  /\ yields (ph_check "p" (VStr "6.5-3.9")) tt
       [msg_ph_reversed "p" "6.5-3.9"] []
  /\ yields (ph_check "p" (VStr "nan-5")) tt [] []
  /\ yields (ph_check "p" (VStr "nan-9")) tt [] [msg_ph_unusual "p" "nan-9"].
Proof.
  split; [|split; [|split; [|split; [|split; [|split]]]]].
  - exact (proj1 (range_text_classified "p" "600" "600" eq_refl eq_refl)).
  - exact (proj1 (range_text_classified "p" "0" "500" eq_refl eq_refl)).
  - exact (proj1 (range_text_classified "p" "low" "500" eq_refl eq_refl)).
  - exact (proj1 (proj2 (range_text_classified "p" "4.0" "8.0" eq_refl eq_refl))).
  - exact (proj1 (proj2 (range_text_classified "p" "6.5" "3.9" eq_refl eq_refl))).
  - exact (proj1 (proj2 (range_text_classified "p" "nan" "5" eq_refl eq_refl))).
  - exact (proj1 (proj2 (range_text_classified "p" "nan" "9" eq_refl eq_refl))).
Defined.

Lemma duplicate_warnings_count_witness :
  exists st',
    check_duplicates_and_conflicts unnamed_bundle new_auditor = (Ok tt, st')
    /\ length (warnings st') = 2%nat
    /\ ~ NoDup (name_keys unnamed_plants).
Proof.
  destruct (duplicate_warnings_count unnamed_bundle unnamed_plants new_auditor eq_refl)
    as (st' & E & Hc & Hs & _).
  - repeat constructor.
  - exists st'. split; [exact E|]. split.
    + change (size (list_to_set (name_keys unnamed_plants) : gset hkey)) with 2%nat in Hc.
      simpl in Hc. lia.
    + intros Hd. apply Hs in Hd. rewrite Hd in Hc.
      change (size (list_to_set (name_keys unnamed_plants) : gset hkey)) with 2%nat in Hc.
      simpl in Hc. lia.
Defined.

Lemma wick_method_not_text_witness :
  yields (wick_step "p" (numeric_method VNone)) tt [] []
  /\ fails (wick_step "p" (numeric_method (VBool true))) TypeError [] []
  /\ fails (wick_step "p" (numeric_method (VBool false))) TypeError [] [].
Proof.
  split; [|split].
  - apply (proj1 (wick_method_not_text "p" (numeric_method VNone) VNone (VInt 3)
                    eq_refl eq_refl)).
    reflexivity.
  - apply (proj1 (proj2 (wick_method_not_text "p" (numeric_method (VBool true))
                           (VBool true) (VInt 3) eq_refl eq_refl))).
    + intros text H. discriminate H.
    + reflexivity.
  - apply (proj1 (proj2 (wick_method_not_text "p" (numeric_method (VBool false))
                           (VBool false) (VInt 3) eq_refl eq_refl))).
    + intros text H. discriminate H.
    + reflexivity.
Defined.



Lemma unhashable_name_raises_witness :
  exists st',
    check_duplicates_and_conflicts list_named_bundle new_auditor = (Raise TypeError, st')
    /\ issues st' = []
    /\ warnings st' = [msg_duplicate "Rose" "A" "B"].
Proof.
  destruct (unhashable_name_raises list_named_bundle
              [("A", VDict [("name", VStr "Rose")]); ("B", VDict [("name", VStr "Rose")])]
              [("D", VDict [("name", VStr "Rose")])]
              "C" (VDict [("name", VList [VStr "Fern"; VStr "Moss"])])
              new_auditor eq_refl)
    as [(st' & E & Hi & Hw) _].
  - repeat constructor.
  - reflexivity.
  - reflexivity.
  - exists st'. split; [exact E|]. split; [exact Hi|]. rewrite Hw. vm_compute. reflexivity.
Defined.
